(** * BlockHub background service worker: rule distribution pipeline

    A shallow embedding of [background.js]: the schema normalizer, the
    digest verifier, the manifest and rule fetchers, the packaged fallback
    loader and the cache orchestrator [retrieveRule], followed by the
    properties of the rule pipeline that the specification states.

    Conventions.
    - JavaScript values are the inductive [value]; objects are association
      lists in property order (insertion order; the engine's reordering of
      integer-like keys and the [__proto__] setter are not modelled).
    - JSON numbers are integers ([Z]): versions are strings, sizes and
      timestamps are integers in every rule and manifest document.
    - A thrown exception is a value of [exn]; [async] functions are state
      and exception passing functions that also return the list of
      observable events they produced (console lines, network requests,
      digest and JSON.parse calls, tab messages).
    - Built-ins of the browser (crypto.subtle, JSON, String.prototype,
      chrome.runtime.getURL) are the fields of the class [Platform].
    - chrome.storage.local and chrome.tabs calls are taken to succeed. *)

From Stdlib Require Import ZArith String Ascii List Bool Lia DecimalString.
From stdpp Require Import base gmap strings list.

Open Scope string_scope.
Set Warnings "-register-all".
Set Default Proof Using "Type".

(** ** JavaScript values *)

Inductive value : Type :=
| VUndefined
| VNull
| VBool (b : bool)
| VNum (n : Z)
| VStr (s : string)
| VArr (items : list value)
| VObj (props : list (string * value)).

Inductive exn : Type :=
| Error (message : string)
| TypeError (message : string).

Definition exn_message (e : exn) : string :=
  match e with
  | Error m => m
  | TypeError m => m
  end.

(** [!!v] *)
Definition truthy (v : value) : bool :=
  match v with
  | VUndefined | VNull => false
  | VBool b => b
  | VNum n => negb (Z.eqb n 0)
  | VStr s => negb (String.eqb s "")
  | VArr _ | VObj _ => true
  end.

(** [a || b] *)
Definition js_or (a b : value) : value := if truthy a then a else b.

Fixpoint obj_get (k : string) (props : list (string * value)) : option value :=
  match props with
  | [] => None
  | (k', v) :: rest => if String.eqb k' k then Some v else obj_get k rest
  end.

(** [obj[k] = v]: an existing property keeps its place, a new one is
    appended. *)
Fixpoint obj_set (k : string) (v : value) (props : list (string * value))
  : list (string * value) :=
  match props with
  | [] => [(k, v)]
  | (k', v') :: rest =>
      if String.eqb k' k then (k, v) :: rest else (k', v') :: obj_set k v rest
  end.

(** [v?.k], and [v.k] when [v] is known not to be null or undefined. Own
    properties only: the one inherited property the worker can reach with
    these keys is [Array.prototype.entries], a function, which the code
    only passes to [Array.isArray] or tests for an array, where it behaves
    as [undefined]. *)
Definition get (v : value) (k : string) : value :=
  match v with
  | VObj props => default VUndefined (obj_get k props)
  | _ => VUndefined
  end.

(** [v.k] without optional chaining: a TypeError on null and undefined. *)
Definition get_strict (v : value) (k : string) : exn + value :=
  match v with
  | VUndefined =>
      inl (TypeError ("Cannot read properties of undefined (reading '" +:+ k +:+ "')"))
  | VNull =>
      inl (TypeError ("Cannot read properties of null (reading '" +:+ k +:+ "')"))
  | _ => inr (get v k)
  end.

Definition isArray (v : value) : bool :=
  match v with VArr _ => true | _ => false end.

(** [typeof v === 'object'] (true of null, arrays and objects). *)
Definition typeof_object (v : value) : bool :=
  match v with VNull | VArr _ | VObj _ => true | _ => false end.

Definition nat_to_string (n : nat) : string :=
  NilZero.string_of_uint (Nat.to_uint n).

Definition Z_to_string (n : Z) : string :=
  NilZero.string_of_int (Z.to_int n).

Definition join (sep : string) (parts : list string) : string :=
  String.concat sep parts.

(** [String(v)] *)
Fixpoint js_String (v : value) : string :=
  match v with
  | VUndefined => "undefined"
  | VNull => "null"
  | VBool true => "true"
  | VBool false => "false"
  | VNum n => Z_to_string n
  | VStr s => s
  | VArr items =>
      join ","
        (map (fun e => match e with
                       | VUndefined | VNull => ""
                       | _ => js_String e
                       end) items)
  | VObj _ => "[object Object]"
  end.

(** What [Array.prototype.flatMap] appends for one callback result. *)
Definition flatMap_items (v : value) : list value :=
  match v with
  | VArr items => items
  | other => [other]
  end.

(** ** Observable events *)

Inductive event : Type :=
| ConsoleLog (message : string)
| ConsoleError (message : string) (error : exn)
| NetFetch (url : string)
| DigestComputed (text : string)
| JsonParsed (text : string)
| TabsMessage (tabs : list Z) (category : string) (source : value) (fetchedAt : Z).

(** ** Browser built-ins *)

Class Platform : Type := {
  (** the bytes of [crypto.subtle.digest('SHA-256', new TextEncoder().encode(text))] *)
  subtle_digest_SHA256 : string -> list Byte.byte;
  JSON_parse : string -> exn + value;
  JSON_stringify : value -> string;
  String_trim : string -> string;
  String_toUpperCase : string -> string;
  runtime_getURL : string -> string
}.

(** ** State and exception passing *)

Definition M (St A : Type) : Type := St -> (exn + A) * St * list event.

Definition ret {St A} (a : A) : M St A := fun s => (inr a, s, []).

Definition bind {St A B} (m : M St A) (k : A -> M St B) : M St B :=
  fun s =>
    match m s with
    | (inl e, s', evs) => (inl e, s', evs)
    | (inr a, s', evs) =>
        let '(r, s'', evs') := k a s' in (r, s'', (evs ++ evs')%list)
    end.

Definition throw {St A} (e : exn) : M St A := fun s => (inl e, s, []).

Definition emit {St} (ev : event) : M St unit := fun s => (inr tt, s, [ev]).

Definition gets {St A} (f : St -> A) : M St A := fun s => (inr (f s), s, []).

Definition modify {St} (f : St -> St) : M St unit := fun s => (inr tt, f s, []).

(** [try { m } catch (e) { h e }] *)
Definition try_catch {St A} (m : M St A) (h : exn -> M St A) : M St A :=
  fun s =>
    match m s with
    | (inl e, s', evs) =>
        let '(r, s'', evs') := h e s' in (r, s'', (evs ++ evs')%list)
    | ok => ok
    end.

(** An expression that may throw without touching the state. *)
Definition liftE {St A} (r : exn + A) : M St A :=
  match r with
  | inl e => throw e
  | inr a => ret a
  end.

Notation "'let*' x ':=' m 'in' k" := (bind m (fun x => k))
  (at level 10, x binder, m at level 100, k at level 200, only parsing).

Notation "m1 ';;' m2" := (bind m1 (fun _ => m2))
  (at level 100, m2 at level 200, right associativity, only parsing).

(** [list.map(f)] and [list.forEach] with the element index; the callback
    runs left to right and an exception stops the traversal. *)
Fixpoint mapM_index {St A B} (f : A -> nat -> M St B) (l : list A) (i : nat)
  : M St (list B) :=
  match l with
  | [] => ret []
  | x :: rest =>
      let* y := f x i in
      let* ys := mapM_index f rest (S i) in
      ret (y :: ys)
  end.

Fixpoint foldM_index {St A B} (f : B -> A -> nat -> M St B) (l : list A) (i : nat)
  (acc : B) : M St B :=
  match l with
  | [] => ret acc
  | x :: rest =>
      let* acc' := f acc x i in
      foldM_index f rest (S i) acc'
  end.

(** ** Constants *)

Definition INDEX_MANIFEST_URL : string :=
  "https://cdn.jsdelivr.net/gh/kaydinindustries-jpg/blockhub-rules@main/index.json".
Definition INDEX_CACHE_KEY : string := "ruleCache:index".
Definition INDEX_CACHE_TTL_MS : Z := 1000 * 60 * 60 * 1.

Definition RULE_ENDPOINTS : list (string * string) :=
  [ ("aiTerms",
     "https://cdn.jsdelivr.net/gh/kaydinindustries-jpg/blockhub-rules@main/cdn/v1/ai_terms.json");
    ("aiWidgetSelectors",
     "https://cdn.jsdelivr.net/gh/kaydinindustries-jpg/blockhub-rules@main/cdn/v1/ai_widget_selectors.json");
    ("cookiePatterns",
     "https://cdn.jsdelivr.net/gh/kaydinindustries-jpg/blockhub-rules@main/cdn/v1/cookie_patterns.json");
    ("killList",
     "https://cdn.jsdelivr.net/gh/kaydinindustries-jpg/blockhub-rules@main/cdn/v1/kill_list.json");
    ("preserveList",
     "https://cdn.jsdelivr.net/gh/kaydinindustries-jpg/blockhub-rules@main/cdn/v1/preserve_list.json") ].

Definition FALLBACK_RULE_FILES : list (string * string) :=
  [ ("aiTerms", "utils/ai_terms.json");
    ("aiWidgetSelectors", "utils/ai_widget_selectors.json");
    ("cookiePatterns", "utils/cookie_patterns.json");
    ("killList", "utils/kill_list.json");
    ("preserveList", "utils/preserve_list.json") ].

Definition RULE_STORAGE_PREFIX : string := "ruleCache:".
Definition RULE_CACHE_TTL_MS : Z := 1000 * 60 * 60 * 6.
Definition FALLBACK_RETRY_MS : Z := 1000 * 60 * 15.
Definition RULE_FETCH_TIMEOUT_MS : Z := 8000.
Definition RULE_CATEGORIES : list string := map fst RULE_ENDPOINTS.

(** [table[key]] on a constant table of strings. *)
Fixpoint table_get (key : string) (table : list (string * string)) : option string :=
  match table with
  | [] => None
  | (k, v) :: rest => if String.eqb k key then Some v else table_get key rest
  end.

(** ** Utilities *)

(** [structuredClone]: values are immutable here, so a deep copy is the
    value itself. *)
Definition cloneData {A} (data : A) : A := data.

Definition log {St} (message : string) : M St unit := emit (ConsoleLog message).

Definition logError {St} (message : string) (error : exn) : M St unit :=
  emit (ConsoleError message error).

Definition hex_digit (n : N) : string :=
  String (Ascii.ascii_of_N (if (n <? 10)%N then 48 + n else 87 + n)) "".

(** [b.toString(16)] for a byte. *)
Definition toString16 (b : Byte.byte) : string :=
  let n := Byte.to_N b in
  if (n <? 16)%N then hex_digit n
  else hex_digit (n / 16) +:+ hex_digit (n mod 16).

Fixpoint repeat_string (fill : string) (n : nat) : string :=
  match n with
  | O => ""
  | S n' => fill +:+ repeat_string fill n'
  end.

(** [s.padStart(len, fill)] for a one-character [fill]. *)
Definition padStart (len : nat) (fill : string) (s : string) : string :=
  repeat_string fill (len - String.length s) +:+ s.

Definition computeSHA256 `{Platform} {St} (text : string) : M St string :=
  emit (DigestComputed text);;
  let hashArray := subtle_digest_SHA256 text in
  ret (join "" (map (fun b => padStart 2 "0" (toString16 b)) hashArray)).

Definition ensureCategory {St} (category : string) : M St unit :=
  match table_get category RULE_ENDPOINTS with
  | Some _ => ret tt
  | None => throw (Error ("Unknown rule category: " +:+ category))
  end.

Definition ensureArray (v : value) : list value :=
  match v with
  | VArr items => items
  | _ => []
  end.

Definition ensureObject (v : value) : value :=
  match v with
  | VObj props => VObj props
  | _ => VObj []
  end.

(** [typeof v === 'string' ? v.trim() : dflt] *)
Definition trimmed_or `{Platform} (v : value) (dflt : value) : value :=
  match v with
  | VStr s => VStr (String_trim s)
  | _ => dflt
  end.

(** [typeof v === 'string' ? v : null] *)
Definition string_or_null (v : value) : value :=
  match v with
  | VStr s => VStr s
  | _ => VNull
  end.

(** [typeof entry?.selector === 'string' ? entry.selector.trim() : ''] *)
Definition selector_of `{Platform} (entry : value) : string :=
  match get entry "selector" with
  | VStr s => String_trim s
  | _ => ""
  end.

Definition normalizeDomEntry `{Platform} (entry : value) (category : string)
  (index : nat) (locale : value) : exn + value :=
  let selector := selector_of entry in
  if String.eqb selector "" then
    inl (Error ("Missing selector in " +:+ category +:+ " entry at index "
                +:+ nat_to_string index))
  else
    let fallbackPatterns :=
      if truthy (get entry "fallbackPatterns") then
        VObj [ ("id",
                if truthy (get (get entry "fallbackPatterns") "id")
                then VStr (js_String (get (get entry "fallbackPatterns") "id"))
                else VNull);
               ("class",
                if truthy (get (get entry "fallbackPatterns") "class")
                then VStr (js_String (get (get entry "fallbackPatterns") "class"))
                else VNull) ]
      else VNull in
    inr (VObj
      [ ("id", if truthy (get entry "id") then VStr (js_String (get entry "id"))
               else VStr (category +:+ "-" +:+ nat_to_string index));
        ("site", js_or (get entry "site") VNull);
        ("feature", js_or (get entry "feature") VNull);
        ("url", js_or (get entry "url") VNull);
        ("selector", VStr selector);
        ("cssPath", trimmed_or (get entry "cssPath") VNull);
        ("jsPath", trimmed_or (get entry "jsPath") VNull);
        ("outerHTML", string_or_null (get entry "outerHTML"));
        ("text", string_or_null (get entry "text"));
        ("textContains", string_or_null (get entry "textContains"));
        ("fallbackPatterns", fallbackPatterns);
        ("fingerprints", ensureObject (get entry "fingerprints"));
        ("notes", string_or_null (get entry "notes"));
        ("category", js_or (get entry "category") VNull);
        ("locale", js_or locale (js_or (get entry "locale") VNull)) ]).

Definition normalizeDomEntryArray `{Platform} {St} (entries : value) (category : string)
  : M St (list value) :=
  mapM_index (fun entry index => liftE (normalizeDomEntry entry category index VNull))
    (ensureArray entries) 0.

(** [v.toUpperCase()] for a truthy [v]: only strings have the method. *)
Definition call_toUpperCase `{Platform} (v : value) : exn + string :=
  match v with
  | VStr s => inr (String_toUpperCase s)
  | _ => inl (TypeError "toUpperCase is not a function")
  end.

(** The closure [registerLocale] of [normalizeLanguageBuckets]; the object
    [locales] it assigns into is passed in and returned. *)
Definition registerLocale `{Platform} {St} (namespace : string)
  (locales : list (string * value)) (localeKey : string) (title : value)
  (entries : value) : M St (list (string * value)) :=
  let* normalizedEntries :=
    mapM_index
      (fun entry entryIndex =>
         liftE (normalizeDomEntry entry (namespace +:+ "." +:+ localeKey)
                  entryIndex (VStr localeKey)))
      (ensureArray entries) 0 in
  ret (obj_set localeKey
         (VObj [ ("title", js_or title VNull);
                 ("entries", VArr normalizedEntries) ])
         locales).

Definition looksLikeSection (section : value) : bool :=
  truthy section && typeof_object section && negb (isArray section)
  && isArray (get section "entries").

Definition normalizeLanguageBuckets `{Platform} {St} (rawSection : value)
  (namespace : string) : M St value :=
  if negb (truthy rawSection) then
    ret (VObj [ ("locales", VObj []); ("combined", VArr []) ])
  else
    let* locales :=
      match rawSection with
      | VArr sections =>
          if forallb looksLikeSection sections then
            foldM_index
              (fun locales section index =>
                 let* localeKey :=
                   liftE (call_toUpperCase
                            (js_or (get section "locale")
                               (VStr ("SECTION_" +:+ nat_to_string index)))) in
                 registerLocale namespace locales localeKey
                   (js_or (get section "title") VNull) (get section "entries"))
              sections 0 []
          else registerLocale namespace [] "GLOBAL" VNull rawSection
      | VObj props =>
          foldM_index
            (fun locales (kv : string * value) (_ : nat) =>
               let localeKey := String_toUpperCase (fst kv) in
               if isArray (get (snd kv) "entries") then
                 registerLocale namespace locales localeKey
                   (js_or (get (snd kv) "title") VNull) (get (snd kv) "entries")
               else registerLocale namespace locales localeKey VNull (snd kv))
            props 0 []
      | _ => ret []
      end in
    let combined :=
      flat_map (fun bucket => flatMap_items (get (snd bucket) "entries")) locales in
    ret (VObj [ ("locales", VObj locales); ("combined", VArr combined) ]).

(** One element of a preserve-list locale group: [None] is the [null] that
    [.filter(Boolean)] removes. *)
Definition normalizePreserveElement `{Platform} {St} (localeKey : string)
  (entry : value) (entryIndex : nat) : M St (option value) :=
  let selector := selector_of entry in
  if String.eqb selector "" then
    log ("Skipping preserve entry without selector at " +:+ localeKey +:+ "["
         +:+ nat_to_string entryIndex +:+ "]");;
    ret None
  else
    ret (Some (VObj
      [ ("id", if truthy (get entry "id") then VStr (js_String (get entry "id"))
               else VStr ("preserve-" +:+ localeKey +:+ "-"
                          +:+ nat_to_string entryIndex));
        ("site", js_or (get entry "site") VNull);
        ("feature", js_or (get entry "feature") VNull);
        ("url", js_or (get entry "url") VNull);
        ("selector", VStr selector);
        ("cssPath", trimmed_or (get entry "cssPath") VNull);
        ("jsPath", trimmed_or (get entry "jsPath") VNull);
        ("outerHTML", string_or_null (get entry "outerHTML"));
        ("text", string_or_null (get entry "text"));
        ("textContains", string_or_null (get entry "textContains"));
        ("fallbackPatterns", js_or (get entry "fallbackPatterns") VNull);
        ("fingerprints", ensureObject (get entry "fingerprints"));
        ("notes", string_or_null (get entry "notes"));
        ("locale", VStr localeKey) ])).

(** The callback of [rawEntries.forEach]; the object [locales] it assigns
    into is passed in and returned. *)
Definition normalizePreserveGroup `{Platform} {St} (locales : list (string * value))
  (localeGroup : value) (groupIndex : nat) : M St (list (string * value)) :=
  let* rawLocale := liftE (get_strict localeGroup "locale") in
  let* localeKey :=
    liftE (call_toUpperCase
             (js_or rawLocale (VStr ("SECTION_" +:+ nat_to_string groupIndex)))) in
  let elements := ensureArray (get localeGroup "elements") in
  let* mapped := mapM_index (normalizePreserveElement localeKey) elements 0 in
  let normalizedElements := omap id mapped in
  ret (obj_set localeKey
         (VObj [ ("title", js_or (get localeGroup "title") VNull);
                 ("elements", VArr normalizedElements) ])
         locales).

Definition normalizePreserveListEntries `{Platform} {St} (rawEntries : value)
  : M St value :=
  match rawEntries with
  | VArr groups =>
      let* locales := foldM_index normalizePreserveGroup groups 0 [] in
      let combined :=
        flat_map
          (fun bucket =>
             flatMap_items (js_or (get (snd bucket) "elements") (VArr [])))
          locales in
      ret (VObj [ ("locales", VObj locales); ("combined", VArr combined) ])
  | _ => ret (VObj [ ("locales", VObj []); ("combined", VArr []) ])
  end.

(** [JSON.stringify(left) === JSON.stringify(right)] *)
Definition deepEqual `{Platform} (left right : value) : bool :=
  String.eqb (JSON_stringify left) (JSON_stringify right).

Definition normalizeRuleData `{Platform} {St} (category : string) (rawData : value)
  : M St value :=
  ensureCategory category;;
  if String.eqb category "aiTerms" then
    let conservative := ensureArray (get rawData "conservative") in
    let aggressive := ensureArray (get rawData "aggressive") in
    if Nat.eqb (length conservative) 0 then
      throw (Error "aiTerms.conservative must contain at least one entry")
    else
      ret (VObj [ ("conservative", VArr conservative);
                  ("aggressive", VArr aggressive) ])
  else if String.eqb category "aiWidgetSelectors" then
    let selectors := ensureArray (get rawData "selectors") in
    let platforms := ensureObject (get rawData "platforms") in
    let textPatternsRaw := ensureObject (get rawData "text_patterns") in
    if Nat.eqb (length selectors) 0 then
      throw (Error "aiWidgetSelectors.selectors must contain at least one entry")
    else
      let text_patterns :=
        fold_left
          (fun acc (kv : string * value) =>
             obj_set (fst kv) (VArr (ensureArray (snd kv))) acc)
          (match textPatternsRaw with VObj props => props | _ => [] end) [] in
      ret (VObj [ ("selectors", VArr selectors);
                  ("platforms", platforms);
                  ("text_patterns", VObj text_patterns) ])
  else if String.eqb category "cookiePatterns" then
    let reject_phrases := ensureArray (get rawData "reject_phrases") in
    let excluded_domains := ensureArray (get rawData "excluded_domains") in
    let cmpsRaw := ensureArray (get rawData "cmps") in
    if Nat.eqb (length reject_phrases) 0 then
      throw (Error "cookiePatterns.reject_phrases must contain at least one entry")
    else
      let cmps :=
        map (fun cmp =>
               VObj [ ("name", js_or (get cmp "name") (VStr "Unnamed CMP"));
                      ("detect_selectors", VArr (ensureArray (get cmp "detect_selectors")));
                      ("reject_selectors", VArr (ensureArray (get cmp "reject_selectors")));
                      ("reject_text_patterns",
                       VArr (ensureArray (get cmp "reject_text_patterns"))) ])
          cmpsRaw in
      ret (VObj [ ("reject_phrases", VArr reject_phrases);
                  ("excluded_domains", VArr excluded_domains);
                  ("cmps", VArr cmps) ])
  else if String.eqb category "killList" then
    let* ads := normalizeLanguageBuckets (get rawData "ads") "killList.ads" in
    let* aiTerms := normalizeLanguageBuckets (get rawData "aiTerms") "killList.aiTerms" in
    let* aiWidgets :=
      normalizeLanguageBuckets (get rawData "aiWidgets") "killList.aiWidgets" in
    let* cookies := normalizeLanguageBuckets (get rawData "cookies") "killList.cookies" in
    ret (VObj [ ("metadata",
                 VObj [ ("version", js_or (get rawData "version") (VStr "1.0.0"));
                        ("lastUpdated", js_or (get rawData "lastUpdated") VNull) ]);
                ("locales", VArr (ensureArray (get rawData "locales")));
                ("ads", ads);
                ("aiTerms", aiTerms);
                ("aiWidgets", aiWidgets);
                ("cookies", cookies) ])
  else if String.eqb category "preserveList" then
    let* processedEntries := normalizePreserveListEntries (get rawData "entries") in
    ret (VObj [ ("metadata",
                 VObj [ ("version", js_or (get rawData "version") (VStr "1.0.0"));
                        ("lastUpdated", js_or (get rawData "lastUpdated") VNull) ]);
                ("locales", VArr (ensureArray (get rawData "locales")));
                ("entries", processedEntries) ])
  else
    throw (Error ("Normalization not implemented for category " +:+ category)).

(** ** Rule records, storage and the worker's state *)

(** A rule record. [rec_verified] is [None] and [rec_hash] is [VUndefined]
    on records that have no such property (the packaged fallback);
    [rec_url] is a [value] because the manifest's [url] is used as it is. *)
Record rule_record : Type := {
  rec_category : string;
  rec_data : value;
  rec_source : string;
  rec_url : value;
  rec_fetchedAt : Z;
  rec_lastError : option string;
  rec_lastFailureAt : option Z;
  rec_verified : option bool;
  rec_hash : value
}.

(** The items of chrome.storage.local the worker keeps: rule records under
    [ruleCache:<category>] and the manifest under [ruleCache:index]. The
    keys are disjoint, so an item of the other kind is never found under a
    key; the readers below take it as absent. *)
Inductive stored_item : Type :=
| StoredRule (record : rule_record)
| StoredIndex (data : value) (fetchedAt : Z).

Inductive fetch_outcome : Type :=
| FetchRejects (error : exn)
| FetchResponds (status : Z) (body : string).

(** What a request made through [fetchWithTimeout] does within the
    timeout. *)
Inductive timed_outcome : Type :=
| Completes (outcome : fetch_outcome)
| TimesOut
| AbortedByEnvironment.

Record world : Type := {
  clock : Z;                                  (* Date.now() *)
  network : string -> timed_outcome;          (* the CDN *)
  bundle : string -> fetch_outcome;           (* packaged extension files *)
  tabs : list Z;                              (* chrome.tabs.query({}) *)
  inMemoryRuleCache : gmap string rule_record;
  storage : gmap string stored_item           (* chrome.storage.local *)
}.

Definition set_inMemoryRuleCache (f : gmap string rule_record -> gmap string rule_record)
  (w : world) : world :=
  {| clock := clock w; network := network w; bundle := bundle w; tabs := tabs w;
     inMemoryRuleCache := f (inMemoryRuleCache w); storage := storage w |}.

Definition set_storage (f : gmap string stored_item -> gmap string stored_item)
  (w : world) : world :=
  {| clock := clock w; network := network w; bundle := bundle w; tabs := tabs w;
     inMemoryRuleCache := inMemoryRuleCache w; storage := f (storage w) |}.

Definition Date_now : M world Z := gets clock.

Record response : Type := { status : Z; body : string }.

(** [response.ok] *)
Definition ok (r : response) : bool :=
  (200 <=? status r)%Z && (status r <=? 299)%Z.

(** [response.json()] *)
Definition response_json `{Platform} {St} (r : response) : M St value :=
  liftE (JSON_parse (body r)).

Definition fetchWithTimeout (url : value) : M world response :=
  emit (NetFetch (js_String url));;
  let* outcome := gets (fun w => network w (js_String url)) in
  match outcome with
  | Completes (FetchResponds st b) => ret {| status := st; body := b |}
  | Completes (FetchRejects error) => throw error
  | TimesOut =>
      throw (Error ("Request to " +:+ js_String url +:+ " timed out after "
                    +:+ Z_to_string RULE_FETCH_TIMEOUT_MS +:+ "ms"))
  | AbortedByEnvironment =>
      throw (Error ("Request to " +:+ js_String url
                    +:+ " was aborted by the environment"))
  end.

(** [fetch(url, { cache: 'no-store' })] of a packaged file. *)
Definition fetch_packaged (url : string) : M world response :=
  emit (NetFetch url);;
  let* outcome := gets (fun w => bundle w url) in
  match outcome with
  | FetchResponds st b => ret {| status := st; body := b |}
  | FetchRejects error => throw error
  end.

(** [now] is [Date.now()]. *)
Definition isRecordFresh (now : Z) (record : option rule_record) : bool :=
  match record with
  | None => false
  | Some r =>
      if Z.eqb (rec_fetchedAt r) 0 then false
      else
        let age := (now - rec_fetchedAt r)%Z in
        let ttl := if String.eqb (rec_source r) "cdn"
                   then RULE_CACHE_TTL_MS else FALLBACK_RETRY_MS in
        (age <? ttl)%Z
  end.

Definition loadRuleFromStorage `{Platform} (category : string)
  : M world (option rule_record) :=
  ensureCategory category;;
  let key := RULE_STORAGE_PREFIX +:+ category in
  let* stored := gets (fun w => storage w !! key) in
  match stored with
  | Some (StoredRule record) =>
      if negb (truthy (rec_data record)) then ret None
      else
        try_catch
          (let* normalized := normalizeRuleData category (rec_data record) in
           ret (Some {| rec_category := category;
                        rec_data := normalized;
                        rec_source := rec_source record;
                        rec_url := rec_url record;
                        rec_fetchedAt := rec_fetchedAt record;
                        rec_lastError := rec_lastError record;
                        rec_lastFailureAt := rec_lastFailureAt record;
                        rec_verified := rec_verified record;
                        rec_hash := rec_hash record |}))
          (fun error =>
             logError ("Cached rule invalid for " +:+ category
                       +:+ ", clearing storage copy") error;;
             modify (set_storage (delete key));;
             ret None)
  | _ => ret None
  end.

Definition saveRuleToStorage (category : string) (record : rule_record)
  : M world unit :=
  ensureCategory category;;
  let key := RULE_STORAGE_PREFIX +:+ category in
  modify (set_storage
            (insert key
               (StoredRule {| rec_category := rec_category record;
                              rec_data := cloneData (rec_data record);
                              rec_source := rec_source record;
                              rec_url := rec_url record;
                              rec_fetchedAt := rec_fetchedAt record;
                              rec_lastError := rec_lastError record;
                              rec_lastFailureAt := rec_lastFailureAt record;
                              rec_verified := rec_verified record;
                              rec_hash := rec_hash record |}))).

(** Returns the manifest, or [VNull]. *)
Definition fetchIndexManifest `{Platform} : M world value :=
  try_catch
    (let* cached := gets (fun w => storage w !! INDEX_CACHE_KEY) in
     let* now := Date_now in
     let fetchFresh : M world value :=
       log "Fetching index manifest from CDN...";;
       let* response := fetchWithTimeout (VStr INDEX_MANIFEST_URL) in
       if negb (ok response) then
         throw (Error ("Index manifest fetch failed: HTTP "
                       +:+ Z_to_string (status response)))
       else
         let* manifest := response_json response in
         let* files := liftE (get_strict manifest "files") in
         if negb (truthy files) || negb (typeof_object files) then
           throw (Error "Invalid manifest structure: missing files object")
         else
           let* now' := Date_now in
           modify (set_storage (insert INDEX_CACHE_KEY (StoredIndex manifest now')));;
           log ("Index manifest fetched (version "
                +:+ js_String (js_or (get manifest "version") (VStr "unknown"))
                +:+ ")");;
           ret manifest in
     match cached with
     | Some (StoredIndex data fetchedAt) =>
         let age := (now - fetchedAt)%Z in
         if (age <? INDEX_CACHE_TTL_MS)%Z then
           log "Using cached index manifest";;
           ret data
         else fetchFresh
     | _ => fetchFresh
     end)
    (fun error =>
       logError "Failed to fetch index manifest, will use fallback URLs" error;;
       ret VNull).

(** [v.substring(0, len)]: only strings have the method. *)
Definition call_substring (v : value) (len : nat) : exn + string :=
  match v with
  | VStr s => inr (String.substring 0 len s)
  | VUndefined =>
      inl (TypeError "Cannot read properties of undefined (reading 'substring')")
  | VNull =>
      inl (TypeError "Cannot read properties of null (reading 'substring')")
  | _ => inl (TypeError "expectedHash.substring is not a function")
  end.

Definition newline : string := String (Ascii.ascii_of_nat 10) "".

(** [actualHash !== expectedHash] for the string [actualHash]. *)
Definition hash_differs (actualHash : string) (expectedHash : value) : bool :=
  match expectedHash with
  | VStr h => negb (String.eqb actualHash h)
  | _ => true
  end.

(** [expectedHash !== null] *)
Definition not_null (v : value) : bool :=
  match v with VNull => false | _ => true end.

(** Lines 522-532 of [fetchRuleFromCdn]: the URL to fetch and the digest
    to expect, from the manifest when it lists the category. *)
Definition resolveEndpoint (category : string) (manifest : value)
  : M world (value * value) :=
  let fileInfo := get (get manifest "files") category in
  if truthy manifest && truthy (get manifest "files") && truthy fileInfo then
    let url := get fileInfo "url" in
    let expectedHash := get fileInfo "sha256" in
    let* prefix := liftE (call_substring expectedHash 16) in
    log ("Fetching " +:+ category +:+ " with integrity check (hash: "
         +:+ prefix +:+ "...)");;
    ret (url, expectedHash)
  else
    log ("Fetching " +:+ category
         +:+ " without integrity check (manifest unavailable)");;
    ret (VStr (default "" (table_get category RULE_ENDPOINTS)), VNull).

(** Lines 534-583 of [fetchRuleFromCdn]: fetch, verify, parse, normalize. *)
Definition fetchVerified `{Platform} (category : string) (url expectedHash : value)
  : M world rule_record :=
  try_catch
    (let* response := fetchWithTimeout url in
     if negb (ok response) then
       throw (Error ("CDN responded with HTTP " +:+ Z_to_string (status response)))
     else
       let rawText := body response in
       (if truthy expectedHash then
          let* actualHash := computeSHA256 rawText in
          if hash_differs actualHash expectedHash then
            let* expectedPrefix := liftE (call_substring expectedHash 32) in
            throw (Error ("Integrity check FAILED for " +:+ category +:+ ":" +:+ newline
                          +:+ "  Expected: " +:+ expectedPrefix +:+ "..." +:+ newline
                          +:+ "  Got:      " +:+ String.substring 0 32 actualHash
                          +:+ "..."))
          else log ("✓ Integrity verified for " +:+ category)
        else ret tt);;
       let* json :=
         try_catch
           (emit (JsonParsed rawText);; liftE (JSON_parse rawText))
           (fun parseError =>
              throw (Error ("Invalid JSON received from CDN: "
                            +:+ exn_message parseError))) in
       let* normalized := normalizeRuleData category json in
       let* now := Date_now in
       ret {| rec_category := category;
              rec_data := normalized;
              rec_source := "cdn";
              rec_url := url;
              rec_fetchedAt := now;
              rec_lastError := None;
              rec_lastFailureAt := None;
              rec_verified := Some (not_null expectedHash);
              rec_hash := expectedHash |})
    (fun error =>
       throw (Error ("CDN fetch failed for " +:+ category +:+ ": "
                     +:+ exn_message error))).

Definition fetchRuleFromCdn `{Platform} (category : string) : M world rule_record :=
  ensureCategory category;;
  let* manifest := fetchIndexManifest in
  let* endpoint := resolveEndpoint category manifest in
  fetchVerified category (fst endpoint) (snd endpoint).

Definition loadFallbackRule `{Platform} (category : string) : M world rule_record :=
  ensureCategory category;;
  match table_get category FALLBACK_RULE_FILES with
  | None => throw (Error ("No fallback file declared for " +:+ category))
  | Some path =>
      let fallbackUrl := runtime_getURL path in
      let* response := fetch_packaged fallbackUrl in
      if negb (ok response) then
        throw (Error ("Failed to load fallback from " +:+ path +:+ " (HTTP "
                      +:+ Z_to_string (status response) +:+ ")"))
      else
        let* json :=
          try_catch (response_json response)
            (fun error =>
               throw (Error ("Invalid JSON in fallback file " +:+ path +:+ ": "
                             +:+ exn_message error))) in
        let* normalized := normalizeRuleData category json in
        let* now := Date_now in
        ret {| rec_category := category;
               rec_data := normalized;
               rec_source := "fallback-local";
               rec_url := VStr fallbackUrl;
               rec_fetchedAt := now;
               rec_lastError := None;
               rec_lastFailureAt := None;
               rec_verified := None;
               rec_hash := VUndefined |}
  end.

(** One [TabsMessage] event stands for the message sent to every tab. *)
Definition broadcastRuleUpdate (category : string) (metadata : rule_record)
  : M world unit :=
  let* tabs := gets tabs in
  let* now := Date_now in
  emit (TabsMessage tabs category
          (js_or (VStr (rec_source metadata)) VNull)
          (if Z.eqb (rec_fetchedAt metadata) 0 then now else rec_fetchedAt metadata)).

(** [{ ...record, lastError: message, lastFailureAt: now }] *)
Definition with_failure (record : rule_record) (message : string) (now : Z)
  : rule_record :=
  {| rec_category := rec_category record;
     rec_data := rec_data record;
     rec_source := rec_source record;
     rec_url := rec_url record;
     rec_fetchedAt := rec_fetchedAt record;
     rec_lastError := Some message;
     rec_lastFailureAt := Some now;
     rec_verified := rec_verified record;
     rec_hash := rec_hash record |}.

(** [memoryRecord?.data || storedRecord?.data || null] *)
Definition priorData_of (memoryRecord storedRecord : option rule_record) : value :=
  js_or (js_or (default VUndefined (rec_data <$> memoryRecord))
           (default VUndefined (rec_data <$> storedRecord)))
    VNull.

(** [data?.length || Object.keys(data || {}).length] *)
Definition entry_count (data : value) : string :=
  if truthy (get data "length") then js_String (get data "length")
  else match data with
       | VObj props => nat_to_string (length props)
       | VArr items => nat_to_string (length items)
       | _ => "0"
       end.

(** The body of the [fetchPromise] that [retrieveRule] creates (lines
    665-713), for the [memoryRecord] and [storedRecord] its creator read. *)
Definition fetchOperation `{Platform} (category : string)
  (memoryRecord storedRecord : option rule_record) : M world rule_record :=
  let priorData := priorData_of memoryRecord storedRecord in
  try_catch
    (let* ruleRecord := fetchRuleFromCdn category in
     modify (set_inMemoryRuleCache (insert category ruleRecord));;
     saveRuleToStorage category ruleRecord;;
     (if negb (truthy priorData) || negb (deepEqual priorData (rec_data ruleRecord))
      then broadcastRuleUpdate category ruleRecord
      else ret tt);;
     log ("Rules loaded from CDN for " +:+ category +:+ " ("
          +:+ entry_count (rec_data ruleRecord) +:+ " entries)");;
     ret ruleRecord)
    (fun cdnError =>
       logError ("CDN fetch failed for " +:+ category) cdnError;;
       let packagedDefaults : M world rule_record :=
         try_catch
           (let* fallbackRecord := loadFallbackRule category in
            let* now := Date_now in
            let record := with_failure fallbackRecord (exn_message cdnError) now in
            modify (set_inMemoryRuleCache (insert category record));;
            saveRuleToStorage category record;;
            log ("Using packaged fallback rules for " +:+ category);;
            ret record)
           (fun fallbackError =>
              logError ("Fallback load failed for " +:+ category) fallbackError;;
              throw (Error ("No rule data available for " +:+ category
                            +:+ ". CDN error: " +:+ exn_message cdnError
                            +:+ ". Fallback error: "
                            +:+ exn_message fallbackError))) in
       match storedRecord with
       | Some stored =>
           if truthy (rec_data stored) then
             let* now := Date_now in
             let record := with_failure stored (exn_message cdnError) now in
             modify (set_inMemoryRuleCache (insert category record));;
             saveRuleToStorage category record;;
             ret record
           else packagedDefaults
       | None => packagedDefaults
       end).

(** Lines 648-653 of [retrieveRule]: the fresh in-memory record, or the
    [memoryRecord] to go on with. *)
Definition retrieveRule_memory (category : string) (forceRefresh : bool)
  : M world (rule_record + option rule_record) :=
  ensureCategory category;;
  let* memoryRecord := gets (fun w => inMemoryRuleCache w !! category) in
  let* now := Date_now in
  match memoryRecord with
  | Some r =>
      if negb forceRefresh && isRecordFresh now memoryRecord
      then ret (inl (cloneData r))
      else ret (inr memoryRecord)
  | None => ret (inr memoryRecord)
  end.

(** Lines 655-659: the fresh stored record, or the [storedRecord] to go on
    with. *)
Definition retrieveRule_storage `{Platform} (category : string) (forceRefresh : bool)
  : M world (rule_record + option rule_record) :=
  let* storedRecord := loadRuleFromStorage category in
  let* now := Date_now in
  match storedRecord with
  | Some r =>
      if negb forceRefresh && isRecordFresh now storedRecord then
        modify (set_inMemoryRuleCache (insert category r));;
        ret (inl (cloneData r))
      else ret (inr storedRecord)
  | None => ret (inr storedRecord)
  end.

(** [retrieveRule] as one caller runs it while no other call is in
    flight: [pendingRuleFetches] has no entry for the category at line
    661, the caller creates [fetchPromise], awaits it and removes the
    entry it added. The in-flight map and interleaved callers are the
    subject of [run_label] below. *)
Definition retrieveRule `{Platform} (category : string) (forceRefresh : bool)
  : M world rule_record :=
  let* hit := retrieveRule_memory category forceRefresh in
  match hit with
  | inl record => ret record
  | inr memoryRecord =>
      let* hit' := retrieveRule_storage category forceRefresh in
      match hit' with
      | inl record => ret record
      | inr storedRecord =>
          let* resolved := fetchOperation category memoryRecord storedRecord in
          ret (cloneData resolved)
      end
  end.

(** ** Interleaved callers

    The worker is single-threaded: a call of [retrieveRule] runs until it
    awaits, and other calls run in between. A call is suspended at line
    655 (the storage read), at line 662 (another caller's promise) or at
    line 718 (its own promise). The body of a [fetchPromise] is run as one
    step when the promise settles. *)

Inductive task : Type :=
| AwaitingStorage (category : string) (forceRefresh : bool)
    (memoryRecord : option rule_record)
| AwaitingPending (category : string) (promise : nat)
| AwaitingOwn (category : string) (promise : nat)
| Finished (result : exn + rule_record).

Inductive promise_state : Type :=
| InFlight (category : string) (memoryRecord storedRecord : option rule_record)
| Settled (result : exn + rule_record).

Record system : Type := {
  sys_world : world;
  pendingRuleFetches : gmap string nat;
  promises : list promise_state;      (* every fetchPromise created, by number *)
  tasks : list task;                  (* every call of retrieveRule made *)
  sys_events : list event
}.

(** What can happen next. *)
Inductive label : Type :=
| Call (category : string) (forceRefresh : bool)   (* retrieveRule is called *)
| StorageRead (i : nat)       (* the await of line 655 of call [i] completes *)
| Settle (p : nat)            (* the fetchPromise numbered [p] settles *)
| Resume (i : nat)            (* the await of line 662 or 718 of call [i] completes *)
| Environment (now : Z) (net : string -> timed_outcome)
    (files : string -> fetch_outcome) (open_tabs : list Z).
                              (* time passes, the network and the tabs change *)

Definition update_task (i : nat) (t : task) (w' : world) (evs : list event)
  (s : system) : system :=
  {| sys_world := w';
     pendingRuleFetches := pendingRuleFetches s;
     promises := promises s;
     tasks := <[i := t]> (tasks s);
     sys_events := (sys_events s ++ evs)%list |}.

Definition run_label `{Platform} (l : label) (s : system) : option system :=
  match l with
  | Call category forceRefresh =>
      (* lines 648-655: up to the first await, or the fresh in-memory
         record, or the exception of ensureCategory *)
      let '(r, w', evs) := retrieveRule_memory category forceRefresh (sys_world s) in
      let t := match r with
               | inl e => Finished (inl e)
               | inr (inl record) => Finished (inr record)
               | inr (inr memoryRecord) =>
                   AwaitingStorage category forceRefresh memoryRecord
               end in
      Some {| sys_world := w';
              pendingRuleFetches := pendingRuleFetches s;
              promises := promises s;
              tasks := (tasks s ++ [t])%list;
              sys_events := (sys_events s ++ evs)%list |}
  | StorageRead i =>
      match tasks s !! i with
      | Some (AwaitingStorage category forceRefresh memoryRecord) =>
          let '(r, w', evs) :=
            retrieveRule_storage category forceRefresh (sys_world s) in
          match r with
          | inl e => Some (update_task i (Finished (inl e)) w' evs s)
          | inr (inl record) => Some (update_task i (Finished (inr record)) w' evs s)
          | inr (inr storedRecord) =>
              match pendingRuleFetches s !! category with
              | Some p =>
                  (* lines 661-663: await the pending promise *)
                  Some (update_task i (AwaitingPending category p) w' evs s)
              | None =>
                  (* lines 665-718: create fetchPromise, register it, await it *)
                  let p := length (promises s) in
                  Some {| sys_world := w';
                          pendingRuleFetches :=
                            <[category := p]> (pendingRuleFetches s);
                          promises :=
                            (promises s
                             ++ [InFlight category memoryRecord storedRecord])%list;
                          tasks := <[i := AwaitingOwn category p]> (tasks s);
                          sys_events := (sys_events s ++ evs)%list |}
              end
          end
      | _ => None
      end
  | Settle p =>
      match promises s !! p with
      | Some (InFlight category memoryRecord storedRecord) =>
          let '(r, w', evs) :=
            fetchOperation category memoryRecord storedRecord (sys_world s) in
          Some {| sys_world := w';
                  pendingRuleFetches := pendingRuleFetches s;
                  promises := <[p := Settled r]> (promises s);
                  tasks := tasks s;
                  sys_events := (sys_events s ++ evs)%list |}
      | _ => None
      end
  | Resume i =>
      match tasks s !! i with
      | Some (AwaitingPending category p) =>
          match promises s !! p with
          | Some (Settled r) =>
              Some (update_task i (Finished (cloneData r)) (sys_world s) [] s)
          | _ => None
          end
      | Some (AwaitingOwn category p) =>
          match promises s !! p with
          | Some (Settled r) =>
              (* lines 718-722: the result or the exception is passed on
                 and the finally block removes the entry *)
              Some {| sys_world := sys_world s;
                      pendingRuleFetches := delete category (pendingRuleFetches s);
                      promises := promises s;
                      tasks := <[i := Finished (cloneData r)]> (tasks s);
                      sys_events := sys_events s |}
          | _ => None
          end
      | _ => None
      end
  | Environment now net files open_tabs =>
      Some {| sys_world :=
                {| clock := now; network := net; bundle := files; tabs := open_tabs;
                   inMemoryRuleCache := inMemoryRuleCache (sys_world s);
                   storage := storage (sys_world s) |};
              pendingRuleFetches := pendingRuleFetches s;
              promises := promises s;
              tasks := tasks s;
              sys_events := sys_events s |}
  end.

Fixpoint run `{Platform} (ls : list label) (s : system) : option system :=
  match ls with
  | [] => Some s
  | l :: rest =>
      match run_label l s with
      | Some s' => run rest s'
      | None => None
      end
  end.


(** The worker just started: nothing pending, no call made. *)
Definition initial_system (w : world) : system :=
  {| sys_world := w;
     pendingRuleFetches := ∅;
     promises := [];
     tasks := [];
     sys_events := [] |}.


(** ** Specification vocabulary *)



(** The hexadecimal digest [computeSHA256] resolves to. *)
Definition sha256_hex `{Platform} (text : string) : string :=
  join "" (map (fun b => padStart 2 "0" (toString16 b)) (subtle_digest_SHA256 text)).

(** The manifest cache entry is absent or older than its TTL. *)
Definition manifest_cache_stale (w : world) : bool :=
  match storage w !! INDEX_CACHE_KEY with
  | Some (StoredIndex _ fetchedAt) =>
      negb (clock w - fetchedAt <? INDEX_CACHE_TTL_MS)%Z
  | _ => true
  end.

(** The request for the manifest fails: a network error, a timeout, an
    abort, a non-success status, a body that is not JSON, or a document
    without a [files] object. *)
Definition manifest_request_fails `{Platform} (w : world) : bool :=
  match network w INDEX_MANIFEST_URL with
  | Completes (FetchResponds st b) =>
      negb (ok {| status := st; body := b |})
      || match JSON_parse b with
         | inl _ => true
         | inr manifest =>
             match get_strict manifest "files" with
             | inl _ => true
             | inr files => negb (truthy files) || negb (typeof_object files)
             end
         end
  | _ => true
  end.

(** The message of the error thrown on a digest mismatch, as
    [fetchRuleFromCdn] rethrows it. *)
Definition integrity_message (category expected actual : string) : string :=
  "CDN fetch failed for " +:+ category +:+ ": "
  +:+ ("Integrity check FAILED for " +:+ category +:+ ":" +:+ newline
       +:+ "  Expected: " +:+ String.substring 0 32 expected +:+ "..." +:+ newline
       +:+ "  Got:      " +:+ String.substring 0 32 actual +:+ "...").

Definition is_json_parse (ev : event) : bool :=
  match ev with JsonParsed _ => true | _ => false end.

Definition is_digest (ev : event) : bool :=
  match ev with DigestComputed _ => true | _ => false end.

Definition is_tabs_message (ev : event) : bool :=
  match ev with TabsMessage _ _ _ _ => true | _ => false end.

Definition is_net_fetch (ev : event) : bool :=
  match ev with NetFetch _ => true | _ => false end.

(** Console lines and network requests: the events that neither parse,
    nor digest, nor notify the tabs. *)
Definition is_console_or_fetch (ev : event) : bool :=
  match ev with
  | ConsoleLog _ | ConsoleError _ _ | NetFetch _ => true
  | _ => false
  end.

(** What [fetchIndexManifest] may change: nothing, or the manifest's own
    cache entry. *)
Definition manifest_frame (w w' : world) : Prop :=
  w' = w
  \/ exists manifest fetchedAt,
      w' = set_storage (insert INDEX_CACHE_KEY (StoredIndex manifest fetchedAt)) w.

Definition is_console_log (ev : event) : bool :=
  match ev with ConsoleLog _ => true | _ => false end.

(** A computation that leaves the state alone and only writes console
    lines. *)
Definition pure_logging {St A} (m : M St A) : Prop :=
  forall s, exists r evs, m s = (r, s, evs) /\ forallb is_console_log evs = true.

(** The state after [inMemoryRuleCache.set(category, record)] and
    [saveRuleToStorage(category, record)]. *)
Definition cached (category : string) (record : rule_record) (w : world) : world :=
  set_storage (insert (RULE_STORAGE_PREFIX +:+ category) (StoredRule record))
    (set_inMemoryRuleCache (insert category record) w).

(** Whether the refresh notifies the tabs after a successful remote fetch
    (line 673): [!priorData || !deepEqual(priorData, ruleRecord.data)]. *)
Definition payload_changed `{Platform} (priorData newData : value) : bool :=
  negb (truthy priorData) || negb (deepEqual priorData newData).

(** [storedRecord && storedRecord.data] (line 683). *)
Definition usable (storedRecord : option rule_record) : bool :=
  match storedRecord with
  | Some stored => truthy (rec_data stored)
  | None => false
  end.







(** Every element filed in [locales] carries a non-empty selector. *)
Definition selectors_present (elements : list value) : Prop :=
  forall e, In e elements ->
    exists sel, get e "selector" = VStr sel /\ sel <> "".



(** ** A sample platform and sample states *)

Definition is_space (c : ascii) : bool :=
  let n := nat_of_ascii c in
  Nat.eqb n 32 || Nat.eqb n 9 || Nat.eqb n 10 || Nat.eqb n 13.

Fixpoint trim_left (s : string) : string :=
  match s with
  | String c rest => if is_space c then trim_left rest else s
  | EmptyString => EmptyString
  end.

Definition reverse_string (s : string) : string :=
  string_of_list_ascii (rev (list_ascii_of_string s)).

Definition ascii_trim (s : string) : string :=
  reverse_string (trim_left (reverse_string (trim_left s))).

Definition ascii_upper (c : ascii) : ascii :=
  let n := nat_of_ascii c in
  if Nat.leb 97 n && Nat.leb n 122 then ascii_of_nat (n - 32) else c.

Fixpoint string_map (f : ascii -> ascii) (s : string) : string :=
  match s with
  | String c rest => String (f c) (string_map f rest)
  | EmptyString => EmptyString
  end.

(** A printer that tells apart the payloads used below. *)
Fixpoint sample_stringify (v : value) : string :=
  match v with
  | VUndefined => "undefined"
  | VNull => "null"
  | VBool true => "true"
  | VBool false => "false"
  | VNum n => Z_to_string n
  | VStr s => "'" +:+ s +:+ "'"
  | VArr items => "[" +:+ join "," (map sample_stringify items) +:+ "]"
  | VObj props =>
      "{" +:+ join "," (map (fun '(k, x) => k +:+ ":" +:+ sample_stringify x) props)
      +:+ "}"
  end.

Definition sample_terms : value :=
  VObj [ ("conservative", VArr [VStr "chatgpt"]); ("aggressive", VArr []) ].

Definition sample_terms_v2 : value :=
  VObj [ ("conservative", VArr [VStr "chatgpt"; VStr "copilot"]);
         ("aggressive", VArr []) ].

Definition sample_preserve : value :=
  VObj [ ("version", VStr "2.0.0");
         ("entries",
          VArr [ VObj [ ("locale", VStr "en");
                        ("title", VStr "English");
                        ("elements",
                         VArr [ VObj [ ("selector", VStr "#search") ];
                                VObj [ ("site", VStr "example.org") ] ]) ] ]) ].

Definition sample_kill : value :=
  VObj [ ("ads", VArr [ VObj [ ("selector", VStr "#ad") ];
                        VObj [ ("site", VStr "example.org") ] ]) ].

(** The manifest names a digest for aiTerms that is the sample digest of
    the body [terms.json]. *)
Definition sample_manifest : value :=
  VObj [ ("version", VStr "1");
         ("files",
          VObj [ ("aiTerms",
                  VObj [ ("url", VStr "https://cdn.example/ai_terms.json");
                         ("sha256", VStr "7465726d732e6a736f6e");
                         ("size", VNum 10) ]) ]) ].

(** The sample platform reads four documents by name; its digest is the
    text itself, byte by byte. *)
Definition sample_platform : Platform := {|
  subtle_digest_SHA256 := list_byte_of_string;
  JSON_parse := fun text =>
    if String.eqb text "terms.json" then inr sample_terms
    else if String.eqb text "terms-v2.json" then inr sample_terms_v2
    else if String.eqb text "preserve.json" then inr sample_preserve
    else if String.eqb text "kill.json" then inr sample_kill
    else if String.eqb text "index.json" then inr sample_manifest
    else inl (Error "Unexpected token");
  JSON_stringify := sample_stringify;
  String_trim := ascii_trim;
  String_toUpperCase := string_map ascii_upper;
  runtime_getURL := fun path => "chrome-extension://blockhub/" +:+ path
|}.

(** The packaged files: only the AI-term dictionary is bundled here. *)
Definition packaged_files (url : string) : fetch_outcome :=
  if String.eqb url "chrome-extension://blockhub/utils/ai_terms.json"
  then FetchResponds 200 "terms.json"
  else FetchRejects (TypeError "Failed to fetch").

Definition aiTerms_endpoint : string :=
  "https://cdn.jsdelivr.net/gh/kaydinindustries-jpg/blockhub-rules@main/cdn/v1/ai_terms.json".

(** No request completes within the timeout. *)
Definition cdn_down (url : string) : timed_outcome := TimesOut.

(** The manifest service is down, the rule files are served. *)
Definition cdn_without_manifest (url : string) : timed_outcome :=
  if String.eqb url INDEX_MANIFEST_URL then Completes (FetchResponds 503 "")
  else if String.eqb url aiTerms_endpoint then Completes (FetchResponds 200 "terms.json")
  else Completes (FetchResponds 404 "").

(** The manifest and the file it describes are served. *)
Definition cdn_healthy (url : string) : timed_outcome :=
  if String.eqb url INDEX_MANIFEST_URL then Completes (FetchResponds 200 "index.json")
  else if String.eqb url "https://cdn.example/ai_terms.json"
       then Completes (FetchResponds 200 "terms.json")
  else Completes (FetchResponds 404 "").

(** The manifest is served, but the rule file is not the one it
    describes. *)
Definition cdn_tampered (url : string) : timed_outcome :=
  if String.eqb url INDEX_MANIFEST_URL then Completes (FetchResponds 200 "index.json")
  else if String.eqb url "https://cdn.example/ai_terms.json"
       then Completes (FetchResponds 200 "terms-v2.json")
  else Completes (FetchResponds 404 "").

(** A worker with empty caches. *)
Definition fresh_install (net : string -> timed_outcome) : world :=
  {| clock := 1700000000000;
     network := net;
     bundle := packaged_files;
     tabs := [7; 9]%Z;
     inMemoryRuleCache := ∅;
     storage := ∅ |}.

Definition sample_terms_digest : string := "7465726d732e6a736f6e".

(** A verified record fetched long ago. *)
Definition old_terms_record : rule_record :=
  {| rec_category := "aiTerms";
     rec_data := sample_terms;
     rec_source := "cdn";
     rec_url := VStr "https://cdn.example/ai_terms.json";
     rec_fetchedAt := 1600000000000;
     rec_lastError := None;
     rec_lastFailureAt := None;
     rec_verified := Some true;
     rec_hash := VStr sample_terms_digest |}.

(** A restarted worker: nothing in memory, the old record in storage. *)
Definition restarted (net : string -> timed_outcome) : world :=
  {| clock := 1700000000000;
     network := net;
     bundle := packaged_files;
     tabs := [7; 9]%Z;
     inMemoryRuleCache := ∅;
     storage := {[ "ruleCache:aiTerms" := StoredRule old_terms_record ]} |}.


(** The payload that the preserve-list document normalizes to. *)
Definition sample_preserve_payload : value :=
  Eval vm_compute in
    match @normalizeRuleData sample_platform unit "preserveList" sample_preserve tt with
    | (inr payload, _, _) => payload
    | _ => VNull
    end.

(** A preserve-list record fetched a thousand seconds ago. *)
Definition recent_preserve_record : rule_record :=
  {| rec_category := "preserveList";
     rec_data := sample_preserve_payload;
     rec_source := "cdn";
     rec_url := VStr "https://cdn.example/preserve_list.json";
     rec_fetchedAt := 1699999000000;
     rec_lastError := None;
     rec_lastFailureAt := None;
     rec_verified := Some true;
     rec_hash := VStr "70726573657276652e6a736f6e" |}.

(** A restarted worker with that record in storage and nothing in
    memory. *)
Definition restarted_with_preserve_list : world :=
  {| clock := 1700000000000;
     network := cdn_down;
     bundle := packaged_files;
     tabs := [7; 9]%Z;
     inMemoryRuleCache := ∅;
     storage := {[ "ruleCache:preserveList" := StoredRule recent_preserve_record ]} |}.

(** A stored record whose payload lost its terms. *)
Definition broken_terms_record : rule_record :=
  {| rec_category := "aiTerms";
     rec_data := VObj [ ("conservative", VArr []); ("aggressive", VArr []) ];
     rec_source := "cdn";
     rec_url := VStr "https://cdn.example/ai_terms.json";
     rec_fetchedAt := 1699999000000;
     rec_lastError := None;
     rec_lastFailureAt := None;
     rec_verified := Some true;
     rec_hash := VStr sample_terms_digest |}.

(** A restarted worker with that record in storage. *)
Definition restarted_with_broken_record : world :=
  {| clock := 1700000000000;
     network := cdn_down;
     bundle := packaged_files;
     tabs := [7; 9]%Z;
     inMemoryRuleCache := ∅;
     storage := {[ "ruleCache:aiTerms" := StoredRule broken_terms_record ]} |}.



(** A worker whose cached manifest lists the AI terms without a digest. *)
Definition manifest_without_digest : world :=
  {| clock := 1700000000000;
     network := cdn_healthy;
     bundle := packaged_files;
     tabs := [7; 9]%Z;
     inMemoryRuleCache := ∅;
     storage :=
       {[ "ruleCache:index" :=
            StoredIndex
              (VObj [ ("files",
                       VObj [ ("aiTerms",
                               VObj [ ("url",
                                       VStr "https://cdn.example/ai_terms.json") ]) ]) ])
              1699999999000 ]} |}.

(** ** Callers of [retrieveRule] *)

(** [refreshAllRules], each call of [retrieveRule] run to its end before
    the next one starts. *)
Fixpoint refreshEach `{Platform} (categories : list string) (forceRefresh : bool)
  : M world unit :=
  match categories with
  | [] => ret tt
  | category :: rest =>
      try_catch
        (retrieveRule category forceRefresh;; ret tt)
        (fun error => logError ("Unable to refresh rules for " +:+ category) error);;
      refreshEach rest forceRefresh
  end.

Definition refreshAllRules `{Platform} (forceRefresh : bool) : M world unit :=
  refreshEach RULE_CATEGORIES forceRefresh.





(** ** Further vocabulary *)

(** A call for [category] leaves everything else alone: the environment,
    the in-memory records of the other categories and every stored item
    except the category's own and the manifest's. *)
Definition touches_only (category : string) (w w' : world) : Prop :=
  clock w' = clock w
  /\ network w' = network w
  /\ bundle w' = bundle w
  /\ tabs w' = tabs w
  /\ (forall c, c <> category -> inMemoryRuleCache w' !! c = inMemoryRuleCache w !! c)
  /\ (forall k, k <> RULE_STORAGE_PREFIX +:+ category -> k <> INDEX_CACHE_KEY ->
         storage w' !! k = storage w !! k).

(** Two states with the same caches, whatever the time and the network. *)
Definition same_caches (w w' : world) : Prop :=
  inMemoryRuleCache w' = inMemoryRuleCache w /\ storage w' = storage w.

Definition is_hex_digit (c : ascii) : bool :=
  let n := nat_of_ascii c in
  (Nat.leb 48 n && Nat.leb n 57) || (Nat.leb 97 n && Nat.leb n 102).

Fixpoint string_forall (p : ascii -> bool) (s : string) : bool :=
  match s with
  | EmptyString => true
  | String c rest => p c && string_forall p rest
  end.

(** Every bucket of a kill-list section holds only entries that carry a
    non-empty selector. *)
Definition entries_ok (locales : list (string * value)) : Prop :=
  forall k b, In (k, b) locales ->
    selectors_present (flatMap_items (get b "entries")).

(** The four sections of the kill-list payload. *)
Definition kill_list_sections : list string :=
  ["ads"; "aiTerms"; "aiWidgets"; "cookies"].

(** The 256 bytes. *)
Definition all_bytes : list Byte.byte :=
  omap Byte.of_N (map N.of_nat (seq 0 256)).


(** * Properties *)

(** ** The monad *)

Lemma bind_inr {St A B} (m : M St A) (k : A -> M St B) s a s' evs :
  m s = (inr a, s', evs) ->
  bind m k s = let '(r, s'', evs') := k a s' in (r, s'', (evs ++ evs')%list).
Proof. intros E. unfold bind. now rewrite E. Qed.

Lemma bind_inl {St A B} (m : M St A) (k : A -> M St B) s e s' evs :
  m s = (inl e, s', evs) -> bind m k s = (inl e, s', evs).
Proof. intros E. unfold bind. now rewrite E. Qed.

Lemma try_catch_inr {St A} (m : M St A) h s a s' evs :
  m s = (inr a, s', evs) -> try_catch m h s = (inr a, s', evs).
Proof. intros E. unfold try_catch. now rewrite E. Qed.

Lemma try_catch_inl {St A} (m : M St A) h s e s' evs :
  m s = (inl e, s', evs) ->
  try_catch m h s = let '(r, s'', evs') := h e s' in (r, s'', (evs ++ evs')%list).
Proof. intros E. unfold try_catch. now rewrite E. Qed.

Lemma ensureCategory_known {St} category (s : St) :
  In category RULE_CATEGORIES -> ensureCategory category s = (inr tt, s, []).
Proof.
  cbn. intros [<-|[<-|[<-|[<-|[<-|[]]]]]]; reflexivity.
Qed.

(** ** The normalizer *)

Section Normalizer.
Context `{Platform} {St : Type}.






End Normalizer.

Section PreserveGroups.
Context `{Platform} {St : Type}.




Lemma obj_set_In k v locales k' b :
  In (k', b) (obj_set k v locales) -> (k', b) = (k, v) \/ In (k', b) locales.
Proof.
  induction locales as [|[k0 v0] rest IH]; cbn.
  - intros [E|[]]. now left.
  - destruct (String.eqb k0 k).
    + intros [E|Hin]; [now left | right; now right].
    + intros [E|Hin]; [right; now left|].
      destruct (IH Hin) as [E|Hin']; [now left | right; now right].
Qed.


End PreserveGroups.

(** ** Schema errors (claims C5 and C6) *)

Section SchemaErrors.
Context `{Platform} {St : Type}.






End SchemaErrors.

(** ** The normalizer only logs *)

Section PureLogging.
Context `{Platform} {St : Type}.

Lemma pure_ret {A} (a : A) : pure_logging (St := St) (ret a).
Proof. intros s. now exists (inr a), []. Qed.

Lemma pure_throw {A} e : pure_logging (St := St) (A := A) (throw e).
Proof. intros s. now exists (inl e), []. Qed.

Lemma pure_liftE {A} (r : exn + A) : pure_logging (St := St) (liftE r).
Proof. destruct r; [apply pure_throw | apply pure_ret]. Qed.

Lemma pure_log message : pure_logging (St := St) (log message).
Proof. intros s. now exists (inr tt), [ConsoleLog message]. Qed.

Lemma pure_bind {A B} (m : M St A) (k : A -> M St B) :
  pure_logging m -> (forall a, pure_logging (k a)) -> pure_logging (bind m k).
Proof.
  intros Hm Hk s. destruct (Hm s) as (r & evs & E & Hevs).
  destruct r as [e|a].
  - exists (inl e), evs. now rewrite (bind_inl _ _ _ _ _ _ E).
  - destruct (Hk a s) as (r' & evs' & E' & Hevs').
    exists r', (evs ++ evs')%list. rewrite (bind_inr _ _ _ _ _ _ E), E'.
    split; [reflexivity|]. rewrite forallb_app, Hevs, Hevs'. reflexivity.
Qed.

Lemma pure_mapM_index {A B} (f : A -> nat -> M St B) l :
  (forall x i, pure_logging (f x i)) -> forall i, pure_logging (mapM_index f l i).
Proof.
  intros Hf. induction l as [|x rest IH]; intros i; cbn [mapM_index].
  - apply pure_ret.
  - apply pure_bind; [apply Hf|]. intros y.
    apply pure_bind; [apply IH|]. intros ys. apply pure_ret.
Qed.

Lemma pure_foldM_index {A B} (f : B -> A -> nat -> M St B) l :
  (forall acc x i, pure_logging (f acc x i)) ->
  forall i acc, pure_logging (foldM_index f l i acc).
Proof.
  intros Hf. induction l as [|x rest IH]; intros i acc; cbn [foldM_index].
  - apply pure_ret.
  - apply pure_bind; [apply Hf|]. intros acc'. apply IH.
Qed.

Lemma pure_registerLocale namespace locales localeKey title entries :
  pure_logging (St := St) (registerLocale namespace locales localeKey title entries).
Proof.
  unfold registerLocale. apply pure_bind.
  - apply pure_mapM_index. intros. apply pure_liftE.
  - intros. apply pure_ret.
Qed.

Lemma pure_normalizeLanguageBuckets rawSection namespace :
  pure_logging (St := St) (normalizeLanguageBuckets rawSection namespace).
Proof.
  unfold normalizeLanguageBuckets.
  destruct (negb (truthy rawSection)); [apply pure_ret|].
  apply pure_bind; [|intros; apply pure_ret].
  destruct rawSection; try apply pure_ret.
  - destruct (forallb looksLikeSection items).
    + apply pure_foldM_index. intros.
      apply pure_bind; [apply pure_liftE|]. intros. apply pure_registerLocale.
    + apply pure_registerLocale.
  - apply pure_foldM_index. intros.
    destruct (isArray _); apply pure_registerLocale.
Qed.

Lemma pure_normalizePreserveListEntries rawEntries :
  pure_logging (St := St) (normalizePreserveListEntries rawEntries).
Proof.
  unfold normalizePreserveListEntries.
  destruct rawEntries; try apply pure_ret.
  apply pure_bind; [|intros; apply pure_ret].
  apply pure_foldM_index. intros. unfold normalizePreserveGroup.
  apply pure_bind; [apply pure_liftE|]. intros.
  apply pure_bind; [apply pure_liftE|]. intros.
  apply pure_bind; [|intros; apply pure_ret].
  apply pure_mapM_index. intros. unfold normalizePreserveElement.
  destruct (String.eqb _ ""); [|apply pure_ret].
  apply pure_bind; [apply pure_log | intros; apply pure_ret].
Qed.

Lemma pure_normalizeRuleData category rawData :
  pure_logging (St := St) (normalizeRuleData category rawData).
Proof.
  unfold normalizeRuleData. apply pure_bind.
  { unfold ensureCategory. destruct (table_get _ _); [apply pure_ret|apply pure_throw]. }
  intros _.
  repeat match goal with
         | |- pure_logging (if ?b then _ else _) => destruct b
         | |- pure_logging (bind _ _) => apply pure_bind; [|intros]
         | |- pure_logging (ret _) => apply pure_ret
         | |- pure_logging (throw _) => apply pure_throw
         | |- pure_logging (normalizeLanguageBuckets _ _) =>
             apply pure_normalizeLanguageBuckets
         | |- pure_logging (normalizePreserveListEntries _) =>
             apply pure_normalizePreserveListEntries
         end.
Qed.
End PureLogging.

Section NormalizedPayload.
Context `{Platform}.

Lemma bind_inr_inv {St A B} (m : M St A) (k : A -> M St B) s b s' evs :
  bind m k s = (inr b, s', evs) ->
  exists a s1 evs1 evs2,
    m s = (inr a, s1, evs1) /\ k a s1 = (inr b, s', evs2)
    /\ evs = (evs1 ++ evs2)%list.
Proof.
  unfold bind. destruct (m s) as [[[e|a] s1] evs1]; [discriminate|].
  destruct (k a s1) as [[r s2] evs2] eqn:Ek. intros [= -> -> <-].
  now exists a, s1, evs1, evs2.
Qed.

Lemma normalizeLanguageBuckets_object {St} rawSection namespace (s s' : St) v evs :
  normalizeLanguageBuckets rawSection namespace s = (inr v, s', evs) ->
  truthy v = true.
Proof.
  unfold normalizeLanguageBuckets.
  destruct (negb (truthy rawSection)); [now intros [= <- _ _]|].
  intros (locales & s1 & e1 & e2 & _ & [= <- _ _] & _)%bind_inr_inv.
  reflexivity.
Qed.

(** A normalized payload is an object. *)
Lemma normalizeRuleData_truthy {St} category rawData (s s' : St) v evs :
  normalizeRuleData category rawData s = (inr v, s', evs) -> truthy v = true.
Proof.
  unfold normalizeRuleData.
  intros (_ & s1 & e1 & e2 & _ & Hk & _)%bind_inr_inv. revert Hk.
  repeat match goal with
         | |- (if ?b then _ else _) _ = _ -> _ => destruct b
         | |- ret _ _ = _ -> _ => now intros [= <- _ _]
         | |- throw _ _ = _ -> _ => discriminate
         | |- bind _ _ _ = _ -> _ =>
             let Hk := fresh "Hk" in
             intros (? & ? & ? & ? & _ & Hk & _)%bind_inr_inv; revert Hk
         end.
Qed.

End NormalizedPayload.

(** ** The fetchers *)

Ltac unfold_monad :=
  unfold bind, ret, throw, emit, gets, modify, try_catch, liftE, log, logError,
    Date_now in *.

Ltac case_scrutinee :=
  match goal with
  | |- context [match ?x with _ => _ end] =>
      lazymatch x with
      | context [match _ with _ => _ end] => fail
      | _ => destruct x eqn:?
      end
  end.

Section Fetchers.
Context `{Platform}.

Lemma computeSHA256_run {St} text (s : St) :
  computeSHA256 text s = (inr (sha256_hex text), s, [DigestComputed text]).
Proof. reflexivity. Qed.

Lemma fetchWithTimeout_run url w :
  exists r, fetchWithTimeout url w = (r, w, [NetFetch (js_String url)])
    /\ match network w (js_String url) with
       | Completes (FetchResponds st b) => r = inr {| status := st; body := b |}
       | _ => exists e, r = inl e
       end.
Proof.
  unfold fetchWithTimeout. unfold_monad. cbn.
  destruct (network w (js_String url)) as [[e|st b]| |]; cbn; eauto.
Qed.

(** [fetchIndexManifest] never throws; it writes at most its own cache
    entry and neither parses with JSON.parse, nor digests, nor notifies. *)
Lemma fetchIndexManifest_total w :
  exists manifest w' evs,
    fetchIndexManifest w = (inr manifest, w', evs)
    /\ manifest_frame w w'
    /\ forallb is_console_or_fetch evs = true.
Proof.
  unfold fetchIndexManifest, fetchWithTimeout, response_json, manifest_frame.
  unfold_monad. cbn.
  repeat (case_scrutinee; cbn; try (injection Heqp as <- <- <-));
    try (do 3 eexists; split; [reflexivity|]; split; [eauto|reflexivity]).
Qed.

Lemma fetchIndexManifest_fails w :
  manifest_cache_stale w = true ->
  manifest_request_fails w = true ->
  exists evs,
    fetchIndexManifest w = (inr VNull, w, evs)
    /\ forallb is_console_or_fetch evs = true
    /\ In (NetFetch INDEX_MANIFEST_URL) evs.
Proof.
  unfold manifest_cache_stale, manifest_request_fails.
  unfold fetchIndexManifest, fetchWithTimeout, response_json.
  unfold_monad. cbn. intros Hstale Hfails.
  repeat (case_scrutinee; cbn in *; try (injection Heqp as <- <- <-));
    try discriminate;
    try (eexists; split; [reflexivity|]; split; [reflexivity|]; cbn; tauto).
  all: try (rewrite ?Heqb2, ?Heqb3 in Hfails; cbn in Hfails; discriminate).
Qed.

Lemma forallb_weaken {A} (p q : A -> bool) l :
  (forall x, p x = true -> q x = true) ->
  forallb p l = true -> forallb q l = true.
Proof.
  intros Hpq. induction l as [|x rest IH]; cbn; [reflexivity|].
  intros [Hx Hrest]%andb_true_iff. now rewrite (Hpq x Hx), IH.
Qed.

Lemma resolveEndpoint_null category w :
  resolveEndpoint category VNull w
  = (inr (VStr (default "" (table_get category RULE_ENDPOINTS)), VNull), w,
     [ConsoleLog ("Fetching " +:+ category
                  +:+ " without integrity check (manifest unavailable)")]).
Proof. reflexivity. Qed.

(** The endpoint is the hardcoded one with no digest, or the manifest's
    with the manifest's digest, which is then a string. *)
Lemma resolveEndpoint_run category manifest w :
  exists r evs,
    resolveEndpoint category manifest w = (r, w, evs)
    /\ forallb is_console_log evs = true
    /\ (forall url expectedHash, r = inr (url, expectedHash) ->
          (expectedHash = VNull
           /\ url = VStr (default "" (table_get category RULE_ENDPOINTS)))
          \/ (exists h,
                expectedHash = VStr h
                /\ get (get (get manifest "files") category) "sha256" = VStr h
                /\ url = get (get (get manifest "files") category) "url")).
Proof.
  unfold resolveEndpoint, call_substring. unfold_monad. cbn.
  destruct (truthy manifest && truthy (get manifest "files")
            && truthy (get (get manifest "files") category)); cbn.
  - destruct (get (get (get manifest "files") category) "sha256") eqn:E; cbn;
      do 2 eexists; (split; [reflexivity|]); (split; [reflexivity|]);
      intros url h [=]; subst. right. eauto.
  - do 2 eexists. split; [reflexivity|]. split; [reflexivity|].
    intros url h [= <- <-]. now left.
Qed.

Ltac run_cases :=
  repeat (first
    [ match goal with
      | |- context [normalizeRuleData ?c ?j ?s] =>
          let E := fresh "Enorm" in
          let Hevs := fresh "Hnorm" in
          destruct (pure_normalizeRuleData c j s) as (? & ? & E & Hevs);
          rewrite E
      end
    | case_scrutinee ]; cbn;
    try match goal with Hq : _ = (_, _, _) |- _ => injection Hq as <- <- <- end).

Lemma console_no_tabs l :
  forallb is_console_log l = true ->
  forallb (fun ev => negb (is_tabs_message ev)) l = true.
Proof. apply forallb_weaken. intros []; cbn; congruence. Qed.

Lemma console_no_digest l :
  forallb is_console_log l = true ->
  forallb (fun ev => negb (is_digest ev)) l = true.
Proof. apply forallb_weaken. intros []; cbn; congruence. Qed.

Lemma console_no_parse l :
  forallb is_console_log l = true ->
  forallb (fun ev => negb (is_json_parse ev)) l = true.
Proof. apply forallb_weaken. intros []; cbn; congruence. Qed.

Lemma console_no_fetch l :
  forallb is_console_log l = true ->
  forallb (fun ev => negb (is_net_fetch ev)) l = true.
Proof. apply forallb_weaken. intros []; cbn; congruence. Qed.

(** Lines 534-583. The state is left alone and no tab is notified; with
    no digest to expect none is computed; a record that is returned is
    tagged [cdn], carries the expected digest as it was given, and when
    that digest is truthy it is the digest computed from the very text
    that was parsed. *)
Lemma fetchVerified_run category url expectedHash w :
  exists r evs,
    fetchVerified category url expectedHash w = (r, w, evs)
    /\ In (NetFetch (js_String url)) evs
    /\ forallb (fun ev => negb (is_tabs_message ev)) evs = true
    /\ (truthy expectedHash = false ->
        forallb (fun ev => negb (is_digest ev)) evs = true)
    /\ (forall record, r = inr record ->
          rec_category record = category
          /\ rec_source record = "cdn"
          /\ rec_url record = url
          /\ rec_fetchedAt record = clock w
          /\ rec_lastError record = None
          /\ rec_lastFailureAt record = None
          /\ rec_verified record = Some (not_null expectedHash)
          /\ rec_hash record = expectedHash
          /\ truthy (rec_data record) = true
          /\ exists st rawText,
               network w (js_String url) = Completes (FetchResponds st rawText)
               /\ In (JsonParsed rawText) evs
               /\ (truthy expectedHash = true ->
                   expectedHash = VStr (sha256_hex rawText)
                   /\ In (DigestComputed rawText) evs)).
Proof.
  unfold fetchVerified, fetchWithTimeout, computeSHA256, call_substring, hash_differs.
  unfold_monad. cbn. run_cases.
  all: try discriminate.
  all: do 2 eexists; (split; [reflexivity|]).
  all: (split; [cbn; tauto|]).
  all: (split; [cbn; rewrite ?forallb_app, ?console_no_tabs by assumption;
                reflexivity|]).
  all: (split; [intros; try discriminate; cbn;
                rewrite ?forallb_app, ?console_no_digest by assumption;
                try reflexivity|]).
  all: intros record [= <-]; cbn.
  all: repeat (split; [reflexivity|]).
  all: (split; [eapply normalizeRuleData_truthy; eassumption|]).
  all: do 2 eexists; (split; [reflexivity|]).
  all: (split; [cbn; rewrite ?in_app_iff; cbn; tauto|]).
  all: intros; try discriminate.
  match goal with
  | Hd : negb (String.eqb _ _) = false |- _ =>
      apply negb_false_iff, String.eqb_eq in Hd; rewrite <- Hd
  end.
  split; [reflexivity | cbn; tauto].
Qed.

(** A digest mismatch: the error, and nothing after the digest. *)
Lemma fetchVerified_mismatch category url h st rawText w :
  network w (js_String url) = Completes (FetchResponds st rawText) ->
  ok {| status := st; body := rawText |} = true ->
  h <> "" ->
  sha256_hex rawText <> h ->
  fetchVerified category url (VStr h) w
  = (inl (Error (integrity_message category h (sha256_hex rawText))), w,
     [NetFetch (js_String url); DigestComputed rawText]).
Proof.
  intros Hnet Hok Hh Hdiff.
  unfold fetchVerified, fetchWithTimeout, computeSHA256, call_substring, hash_differs.
  unfold_monad. cbn. rewrite Hnet. cbn in Hok |- *. rewrite Hok. cbn.
  apply String.eqb_neq in Hh. rewrite Hh. cbn.
  fold (sha256_hex rawText).
  apply String.eqb_neq in Hdiff. rewrite Hdiff. cbn. reflexivity.
Qed.

Lemma fetchRuleFromCdn_unfold category w manifest w1 evs1 :
  In category RULE_CATEGORIES ->
  fetchIndexManifest w = (inr manifest, w1, evs1) ->
  fetchRuleFromCdn category w
  = let '(r, w2, evs2) :=
      bind (resolveEndpoint category manifest)
        (fun endpoint => fetchVerified category (fst endpoint) (snd endpoint)) w1
    in (r, w2, (evs1 ++ evs2)%list).
Proof.
  intros Hc Em. unfold fetchRuleFromCdn.
  rewrite (bind_inr _ _ _ _ _ _ (ensureCategory_known category w Hc)).
  rewrite (bind_inr _ _ _ _ _ _ Em).
  now destruct (bind (resolveEndpoint category manifest) _ w1) as [[r w2] evs2].
Qed.

Lemma manifest_frame_clock w w' : manifest_frame w w' -> clock w' = clock w.
Proof. now intros [->|(m & t & ->)]. Qed.

Lemma manifest_frame_network w w' : manifest_frame w w' -> network w' = network w.
Proof. now intros [->|(m & t & ->)]. Qed.

Lemma manifest_frame_memory w w' :
  manifest_frame w w' -> inMemoryRuleCache w' = inMemoryRuleCache w.
Proof. now intros [->|(m & t & ->)]. Qed.

Lemma manifest_frame_storage w w' key :
  manifest_frame w w' -> key <> INDEX_CACHE_KEY ->
  storage w' !! key = storage w !! key.
Proof.
  intros [->|(m & t & ->)] Hk; [reflexivity|]. cbn.
  now rewrite lookup_insert_ne.
Qed.

(** [fetchRuleFromCdn] as a whole. *)
Lemma fetchRuleFromCdn_run category w :
  In category RULE_CATEGORIES ->
  exists r w' evs,
    fetchRuleFromCdn category w = (r, w', evs)
    /\ manifest_frame w w'
    /\ forallb (fun ev => negb (is_tabs_message ev)) evs = true
    /\ (forall record, r = inr record ->
          rec_category record = category
          /\ rec_source record = "cdn"
          /\ rec_fetchedAt record = clock w
          /\ rec_lastError record = None
          /\ rec_lastFailureAt record = None
          /\ rec_verified record = Some (not_null (rec_hash record))
          /\ truthy (rec_data record) = true
          /\ (rec_hash record = VNull
              \/ exists h, rec_hash record = VStr h
                 /\ (h <> "" ->
                     exists rawText,
                       h = sha256_hex rawText
                       /\ In (DigestComputed rawText) evs
                       /\ In (JsonParsed rawText) evs))).
Proof.
  intros Hc.
  destruct (fetchIndexManifest_total w) as (manifest & w1 & evs1 & Em & Hframe & Hev1).
  rewrite (fetchRuleFromCdn_unfold _ _ _ _ _ Hc Em).
  destruct (resolveEndpoint_run category manifest w1) as (re & evs2 & Er & Hev2 & Hre).
  destruct re as [e|[url expectedHash]].
  - rewrite (bind_inl _ _ _ _ _ _ Er).
    exists (inl e), w1, (evs1 ++ evs2)%list. split; [reflexivity|].
    split; [exact Hframe|]. split; [|discriminate].
    rewrite forallb_app, (console_no_tabs _ Hev2), andb_true_r.
    revert Hev1. apply forallb_weaken. intros []; cbn; congruence.
  - rewrite (bind_inr _ _ _ _ _ _ Er). cbn [fst snd].
    destruct (fetchVerified_run category url expectedHash w1)
      as (r & evs3 & Ev & _ & Hev3 & _ & Hrec).
    rewrite Ev. exists r, w1, (evs1 ++ evs2 ++ evs3)%list.
    split; [reflexivity|]. split; [exact Hframe|]. split.
    + rewrite !forallb_app, (console_no_tabs _ Hev2), Hev3, !andb_true_r.
      revert Hev1. apply forallb_weaken. intros []; cbn; congruence.
    + intros record ->.
      destruct (Hrec record eq_refl)
        as (Hcat & Hsrc & Hurl & Hat & Hle & Hlf & Hver & Hhash & Hdata & st
            & rawText & Hnet & Hparsed & Hdig).
      rewrite Hhash, (manifest_frame_clock _ _ Hframe) in *.
      repeat (split; [assumption|]).
      destruct (Hre url expectedHash eq_refl) as [[-> _]|(h & -> & _)];
        [now left|right].
      exists h. split; [reflexivity|]. intros Hh.
      destruct Hdig as [Eh Hd].
      { cbn. apply String.eqb_neq in Hh. now rewrite Hh. }
      exists rawText. injection Eh as ->. split; [reflexivity|].
      split; rewrite !in_app_iff; auto.
Qed.
End Fetchers.

(** ** Storage and the packaged fallback *)

Section Storage.
Context `{Platform}.

Lemma record_eta (r : rule_record) :
  {| rec_category := rec_category r; rec_data := rec_data r;
     rec_source := rec_source r; rec_url := rec_url r;
     rec_fetchedAt := rec_fetchedAt r; rec_lastError := rec_lastError r;
     rec_lastFailureAt := rec_lastFailureAt r; rec_verified := rec_verified r;
     rec_hash := rec_hash r |} = r.
Proof. now destruct r. Qed.

Lemma saveRuleToStorage_run category record w :
  In category RULE_CATEGORIES ->
  saveRuleToStorage category record w
  = (inr tt,
     set_storage (insert (RULE_STORAGE_PREFIX +:+ category) (StoredRule record)) w,
     []).
Proof.
  intros Hc. unfold saveRuleToStorage.
  rewrite (bind_inr _ _ _ _ _ _ (ensureCategory_known category w Hc)).
  unfold cloneData. now rewrite record_eta.
Qed.

(** [inMemoryRuleCache.set] followed by [saveRuleToStorage]. *)
Lemma cache_and_save {A} category record (k : M world A) w :
  In category RULE_CATEGORIES ->
  bind (modify (set_inMemoryRuleCache (insert category record)))
    (fun _ => bind (saveRuleToStorage category record) (fun _ => k)) w
  = k (cached category record w).
Proof.
  intros Hc. unfold bind at 1. cbn.
  rewrite (bind_inr _ _ _ _ _ _ (saveRuleToStorage_run category record _ Hc)).
  unfold cached. now destruct (k _) as [[r w'] evs].
Qed.

(** [loadRuleFromStorage] never throws on a known category and makes
    no request. The record it returns is the stored one with its data
    normalized again; when it returns one, nothing is written. *)
Lemma loadRuleFromStorage_run category w :
  In category RULE_CATEGORIES ->
  exists r w' evs,
    loadRuleFromStorage category w = (inr r, w', evs)
    /\ inMemoryRuleCache w' = inMemoryRuleCache w
    /\ clock w' = clock w
    /\ network w' = network w
    /\ forallb is_console_or_fetch evs = true
    /\ forallb (fun ev => negb (is_net_fetch ev)) evs = true
    /\ (forall record, r = Some record ->
          w' = w /\ truthy (rec_data record) = true
          /\ exists stored,
               storage w !! (RULE_STORAGE_PREFIX +:+ category)
               = Some (StoredRule stored)
               /\ normalizeRuleData category (rec_data stored) w
                  = (inr (rec_data record), w, evs)
               /\ rec_source record = rec_source stored
               /\ rec_fetchedAt record = rec_fetchedAt stored).
Proof.
  intros Hc. unfold loadRuleFromStorage.
  rewrite (bind_inr _ _ _ _ _ _ (ensureCategory_known category w Hc)).
  unfold_monad. cbn.
  destruct (storage w !! (RULE_STORAGE_PREFIX +:+ category)) as [[stored|m t]|] eqn:Es;
    try (exists None, w, []; repeat split; try reflexivity; discriminate).
  destruct (truthy (rec_data stored)); cbn;
    try (exists None, w, []; repeat split; try reflexivity; discriminate).
  destruct (pure_normalizeRuleData category (rec_data stored) w)
    as (rn & evn & En & Hevn).
  rewrite En.
  assert (Hcf : forall l, forallb is_console_log l = true ->
                          forallb is_console_or_fetch l = true).
  { intros l. apply forallb_weaken. intros []; cbn; congruence. }
  destruct rn as [e|normalized]; cbn.
  - do 3 eexists. split; [reflexivity|]. cbn.
    rewrite !forallb_app. cbn.
    rewrite (console_no_fetch _ Hevn), (Hcf _ Hevn).
    repeat split; discriminate.
  - do 3 eexists. split; [reflexivity|]. cbn. rewrite !app_nil_r.
    rewrite (console_no_fetch _ Hevn), (Hcf _ Hevn).
    do 5 (split; [reflexivity|]).
    intros rec0 [= <-]. cbn. split; [reflexivity|].
    split; [apply (normalizeRuleData_truthy _ _ _ _ _ _ En)|].
    exists stored. repeat split; assumption.
Qed.
End Storage.

(** ** The orchestrator, step by step *)

Section Orchestrator.
Context `{Platform}.

Lemma loadFallbackRule_run category w :
  exists r evs,
    loadFallbackRule category w = (r, w, evs)
    /\ forallb (fun ev => negb (is_tabs_message ev)) evs = true
    /\ forallb (fun ev => negb (is_json_parse ev)) evs = true
    /\ (forall record, r = inr record ->
          rec_category record = category
          /\ rec_source record = "fallback-local"
          /\ rec_fetchedAt record = clock w
          /\ rec_verified record = None
          /\ truthy (rec_data record) = true).
Proof.
  unfold loadFallbackRule, fetch_packaged, ensureCategory, response_json.
  generalize (table_get category RULE_ENDPOINTS)
             (table_get category FALLBACK_RULE_FILES).
  intros endpoint path. unfold_monad. cbn.
  repeat (first
    [ match goal with
      | |- context [normalizeRuleData ?c ?j ?s] =>
          let E := fresh "Enorm" in
          let Hevs := fresh "Hnorm" in
          destruct (pure_normalizeRuleData c j s) as (? & ? & E & Hevs);
          rewrite E
      end
    | case_scrutinee ]; cbn;
    try match goal with Hq : _ = (_, _, _) |- _ => injection Hq as <- <- <- end).
  all: try discriminate.
  all: do 2 eexists; (split; [reflexivity|]).
  all: (split; [cbn; rewrite ?forallb_app, ?console_no_tabs by assumption;
                reflexivity|]).
  all: (split; [cbn; rewrite ?forallb_app, ?console_no_parse by assumption;
                reflexivity|]).
  all: intros record [= <-]; cbn.
  all: repeat (split; [reflexivity|]).
  all: eapply normalizeRuleData_truthy; eassumption.
Qed.

Lemma retrieveRule_memory_run category forceRefresh w :
  In category RULE_CATEGORIES ->
  retrieveRule_memory category forceRefresh w
  = (inr match inMemoryRuleCache w !! category with
         | Some r =>
             if negb forceRefresh && isRecordFresh (clock w) (Some r)
             then inl r else inr (Some r)
         | None => inr None
         end, w, []).
Proof.
  intros Hc. unfold retrieveRule_memory.
  rewrite (bind_inr _ _ _ _ _ _ (ensureCategory_known category w Hc)).
  unfold_monad. cbn -[isRecordFresh].
  destruct (inMemoryRuleCache w !! category) as [r|]; cbn -[isRecordFresh];
    [destruct (negb forceRefresh && isRecordFresh (clock w) (Some r))|];
    reflexivity.
Qed.

Lemma retrieveRule_storage_run category forceRefresh w storedRecord w1 evs1 :
  loadRuleFromStorage category w = (inr storedRecord, w1, evs1) ->
  retrieveRule_storage category forceRefresh w
  = match storedRecord with
    | Some r =>
        if negb forceRefresh && isRecordFresh (clock w1) (Some r)
        then (inr (inl r), set_inMemoryRuleCache (insert category r) w1, evs1)
        else (inr (inr (Some r)), w1, evs1)
    | None => (inr (inr None), w1, evs1)
    end.
Proof.
  intros El. unfold retrieveRule_storage.
  rewrite (bind_inr _ _ _ _ _ _ El). unfold_monad. cbn -[isRecordFresh].
  destruct storedRecord as [r|]; cbn -[isRecordFresh];
    [destruct (negb forceRefresh && isRecordFresh (clock w1) (Some r)); cbn|];
    now rewrite ?app_nil_r.
Qed.

(** The storage stage never throws, makes no request and, when it does
    not return, leaves the caches as [loadRuleFromStorage] left them. *)
Lemma retrieveRule_storage_total category forceRefresh w :
  In category RULE_CATEGORIES ->
  exists hit w1 evs1,
    retrieveRule_storage category forceRefresh w = (inr hit, w1, evs1)
    /\ forallb (fun ev => negb (is_net_fetch ev)) evs1 = true
    /\ (forall storedRecord stored,
          hit = inr storedRecord -> storedRecord = Some stored ->
          truthy (rec_data stored) = true /\ w1 = w).
Proof.
  intros Hc.
  destruct (loadRuleFromStorage_run category w Hc)
    as (st & w1 & evs1 & El & _ & _ & _ & _ & Hnf & Hrec).
  rewrite (retrieveRule_storage_run _ _ _ _ _ _ El).
  destruct st as [r|].
  - destruct (Hrec r eq_refl) as (-> & Htruthy & _).
    destruct (negb forceRefresh && isRecordFresh (clock w) (Some r)).
    + do 3 eexists. split; [reflexivity|]. split; [exact Hnf|]. discriminate.
    + do 3 eexists. split; [reflexivity|]. split; [exact Hnf|].
      intros ? ? [= <-] [= <-]. now split.
  - do 3 eexists. split; [reflexivity|]. split; [exact Hnf|].
    intros ? ? [= <-]. discriminate.
Qed.

(** Once neither cache is fresh, [retrieveRule] is the refresh. *)
Lemma retrieveRule_refresh category forceRefresh w memoryRecord storedRecord w1 evs1 :
  retrieveRule_memory category forceRefresh w = (inr (inr memoryRecord), w, []) ->
  retrieveRule_storage category forceRefresh w = (inr (inr storedRecord), w1, evs1) ->
  retrieveRule category forceRefresh w
  = let '(r, w', evs) := fetchOperation category memoryRecord storedRecord w1 in
    (r, w', (evs1 ++ evs)%list).
Proof.
  intros Em Es. unfold retrieveRule.
  rewrite (bind_inr _ _ _ _ _ _ Em). rewrite (bind_inr _ _ _ _ _ _ Es).
  unfold bind, ret, cloneData.
  destruct (fetchOperation category memoryRecord storedRecord w1) as [[[e|r] w'] evs];
    cbn; now rewrite ?app_nil_r.
Qed.

Lemma fetchOperation_remote category memoryRecord storedRecord w ruleRecord w1 evs1 :
  In category RULE_CATEGORIES ->
  fetchRuleFromCdn category w = (inr ruleRecord, w1, evs1) ->
  fetchOperation category memoryRecord storedRecord w
  = (inr ruleRecord, cached category ruleRecord w1,
     (evs1
      ++ (if payload_changed (priorData_of memoryRecord storedRecord)
               (rec_data ruleRecord)
          then [TabsMessage (tabs w1) category
                  (js_or (VStr (rec_source ruleRecord)) VNull)
                  (if Z.eqb (rec_fetchedAt ruleRecord) 0 then clock w1
                   else rec_fetchedAt ruleRecord)]
          else [])
      ++ [ConsoleLog ("Rules loaded from CDN for " +:+ category +:+ " ("
                      +:+ entry_count (rec_data ruleRecord) +:+ " entries)")])%list).
Proof.
  intros Hc Ef. unfold fetchOperation.
  erewrite try_catch_inr; [reflexivity|].
  rewrite (bind_inr _ _ _ _ _ _ Ef).
  rewrite (cache_and_save _ _ _ _ Hc).
  unfold payload_changed, broadcastRuleUpdate. unfold_monad. cbn.
  destruct (negb (truthy _) || negb (deepEqual _ _)); cbn; reflexivity.
Qed.

Lemma fetchOperation_stale category memoryRecord stored w cdnError w1 evs1 :
  In category RULE_CATEGORIES ->
  fetchRuleFromCdn category w = (inl cdnError, w1, evs1) ->
  truthy (rec_data stored) = true ->
  fetchOperation category memoryRecord (Some stored) w
  = (inr (with_failure stored (exn_message cdnError) (clock w1)),
     cached category (with_failure stored (exn_message cdnError) (clock w1)) w1,
     (evs1 ++ [ConsoleError ("CDN fetch failed for " +:+ category) cdnError])%list).
Proof.
  intros Hc Ef Hdata. unfold fetchOperation.
  erewrite try_catch_inl; [|now rewrite (bind_inl _ _ _ _ _ _ Ef)].
  unfold logError. unfold bind at 1. unfold emit at 1. rewrite Hdata.
  unfold Date_now. unfold bind at 1. unfold gets at 1.
  rewrite (cache_and_save _ _ _ _ Hc). cbn. reflexivity.
Qed.

Lemma fetchOperation_fallback category memoryRecord storedRecord w cdnError w1 evs1
      rf evsF :
  In category RULE_CATEGORIES ->
  fetchRuleFromCdn category w = (inl cdnError, w1, evs1) ->
  usable storedRecord = false ->
  loadFallbackRule category w1 = (rf, w1, evsF) ->
  fetchOperation category memoryRecord storedRecord w
  = match rf with
    | inr fallbackRecord =>
        (inr (with_failure fallbackRecord (exn_message cdnError) (clock w1)),
         cached category
           (with_failure fallbackRecord (exn_message cdnError) (clock w1)) w1,
         (evs1 ++ [ConsoleError ("CDN fetch failed for " +:+ category) cdnError]
          ++ evsF
          ++ [ConsoleLog ("Using packaged fallback rules for " +:+ category)])%list)
    | inl fallbackError =>
        (inl (Error ("No rule data available for " +:+ category
                     +:+ ". CDN error: " +:+ exn_message cdnError
                     +:+ ". Fallback error: " +:+ exn_message fallbackError)),
         w1,
         (evs1 ++ [ConsoleError ("CDN fetch failed for " +:+ category) cdnError]
          ++ evsF
          ++ [ConsoleError ("Fallback load failed for " +:+ category)
                fallbackError])%list)
    end.
Proof.
  intros Hc Ef Hst El. unfold fetchOperation.
  erewrite try_catch_inl; [|now rewrite (bind_inl _ _ _ _ _ _ Ef)].
  unfold logError. unfold bind at 1. unfold emit at 1.
  cbv zeta.
  assert (Hpick :
            match storedRecord with
            | Some stored => truthy (rec_data stored) = false
            | None => True
            end) by (destruct storedRecord; [exact Hst | exact I]).
  clear Hst.
  destruct rf as [fe|fb].
  - assert (Efb : forall h,
               try_catch
                 (let* fallbackRecord := loadFallbackRule category in
                  let* now := Date_now in
                  let record := with_failure fallbackRecord (exn_message cdnError) now in
                  modify (set_inMemoryRuleCache (insert category record));;
                  saveRuleToStorage category record;;
                  log ("Using packaged fallback rules for " +:+ category);;
                  ret record) h w1
               = let '(r, s'', evs') := h fe w1 in (r, s'', (evsF ++ evs')%list)).
    { intros h. erewrite try_catch_inl; [reflexivity|].
      now rewrite (bind_inl _ _ _ _ _ _ El). }
    destruct storedRecord as [stored|]; [rewrite Hpick|]; rewrite Efb; reflexivity.
  - assert (Efb : forall h,
               try_catch
                 (let* fallbackRecord := loadFallbackRule category in
                  let* now := Date_now in
                  let record := with_failure fallbackRecord (exn_message cdnError) now in
                  modify (set_inMemoryRuleCache (insert category record));;
                  saveRuleToStorage category record;;
                  log ("Using packaged fallback rules for " +:+ category);;
                  ret record) h w1
               = (inr (with_failure fb (exn_message cdnError) (clock w1)),
                  cached category (with_failure fb (exn_message cdnError) (clock w1)) w1,
                  (evsF ++ [ConsoleLog ("Using packaged fallback rules for "
                                        +:+ category)])%list)).
    { intros h. erewrite try_catch_inr; [reflexivity|].
      rewrite (bind_inr _ _ _ _ _ _ El).
      unfold Date_now. unfold bind at 1. unfold gets at 1.
      rewrite (cache_and_save _ _ _ _ Hc). cbn. reflexivity. }
    destruct storedRecord as [stored|]; [rewrite Hpick|]; rewrite Efb; reflexivity.
Qed.
End Orchestrator.

(** ** Integrity of remote rules (claims C1, C2 and C7) *)

Section Integrity.
Context `{Platform}.

Lemma rule_key_not_index category :
  In category RULE_CATEGORIES -> RULE_STORAGE_PREFIX +:+ category <> INDEX_CACHE_KEY.
Proof. cbn. intros [<-|[<-|[<-|[<-|[<-|[]]]]]]; discriminate. Qed.


Lemma console_or_fetch_no_parse l :
  forallb is_console_or_fetch l = true ->
  forallb (fun ev => negb (is_json_parse ev)) l = true.
Proof. apply forallb_weaken. intros []; cbn; congruence. Qed.

Lemma console_or_fetch_no_digest l :
  forallb is_console_or_fetch l = true ->
  forallb (fun ev => negb (is_digest ev)) l = true.
Proof. apply forallb_weaken. intros []; cbn; congruence. Qed.


Lemma cached_memory category record w :
  inMemoryRuleCache (cached category record w) !! category = Some record.
Proof. cbn. apply lookup_insert_eq. Qed.

Lemma cached_storage category record w :
  storage (cached category record w) !! (RULE_STORAGE_PREFIX +:+ category)
  = Some (StoredRule record).
Proof. cbn. apply lookup_insert_eq. Qed.

(** C1. The manifest lists the category with a non-empty digest [h], the
    response arrives with a success status and a body whose SHA-256 is
    not [h]: [fetchRuleFromCdn] throws the integrity error, whose message
    shows the first 32 characters of both digests; JSON.parse is not
    called (so nothing is normalized either) and the caches keep their
    entries for the category. Whatever [retrieveRule]'s refresh then
    caches is the stored record or the packaged fallback, marked with
    that error. *)
Theorem C1_digest_mismatch_is_fatal
  category w manifest w1 evs1 h st rawText :
  In category RULE_CATEGORIES ->
  fetchIndexManifest w = (inr manifest, w1, evs1) ->
  truthy manifest && truthy (get manifest "files")
    && truthy (get (get manifest "files") category) = true ->
  get (get (get manifest "files") category) "sha256" = VStr h ->
  h <> "" ->
  network w (js_String (get (get (get manifest "files") category) "url"))
  = Completes (FetchResponds st rawText) ->
  ok {| status := st; body := rawText |} = true ->
  sha256_hex rawText <> h ->
  exists evs,
    fetchRuleFromCdn category w
    = (inl (Error (integrity_message category h (sha256_hex rawText))), w1, evs)
    /\ forallb (fun ev => negb (is_json_parse ev)) evs = true
    /\ In (DigestComputed rawText) evs
    /\ inMemoryRuleCache w1 = inMemoryRuleCache w
    /\ storage w1 !! (RULE_STORAGE_PREFIX +:+ category)
       = storage w !! (RULE_STORAGE_PREFIX +:+ category)
    /\ forall memoryRecord storedRecord,
         exists r w2 evs2,
           fetchOperation category memoryRecord storedRecord w = (r, w2, evs2)
           /\ forallb (fun ev => negb (is_json_parse ev)) evs2 = true
           /\ forall record, r = inr record ->
                inMemoryRuleCache w2 !! category = Some record
                /\ storage w2 !! (RULE_STORAGE_PREFIX +:+ category)
                   = Some (StoredRule record)
                /\ rec_lastError record
                   = Some (integrity_message category h (sha256_hex rawText))
                /\ ((exists stored, storedRecord = Some stored
                                    /\ rec_data record = rec_data stored)
                    \/ rec_source record = "fallback-local").
Proof.
  intros Hc Em Hlisted Hsha Hh Hnet Hok Hdiff.
  destruct (fetchIndexManifest_total w) as (m' & w1' & evs1' & Em' & Hframe & Hev1).
  rewrite Em in Em'. injection Em' as <- <- <-.
  assert (Er : resolveEndpoint category manifest w1
               = (inr (get (get (get manifest "files") category) "url", VStr h), w1,
                  [ConsoleLog ("Fetching " +:+ category
                               +:+ " with integrity check (hash: "
                               +:+ String.substring 0 16 h +:+ "...)")])).
  { unfold resolveEndpoint. rewrite Hlisted, Hsha. reflexivity. }
  assert (Ef : fetchRuleFromCdn category w
               = (inl (Error (integrity_message category h (sha256_hex rawText))), w1,
                  (evs1 ++ [ConsoleLog ("Fetching " +:+ category
                                        +:+ " with integrity check (hash: "
                                        +:+ String.substring 0 16 h +:+ "...)");
                            NetFetch (js_String
                              (get (get (get manifest "files") category) "url"));
                            DigestComputed rawText])%list)).
  { rewrite (fetchRuleFromCdn_unfold _ _ _ _ _ Hc Em).
    rewrite (bind_inr _ _ _ _ _ _ Er). cbn [fst snd].
    rewrite (fetchVerified_mismatch category _ h st rawText w1); [reflexivity| |assumption..].
    now rewrite (manifest_frame_network _ _ Hframe). }
  assert (Hnp : forallb (fun ev => negb (is_json_parse ev))
                  (evs1 ++ [ConsoleLog ("Fetching " +:+ category
                                        +:+ " with integrity check (hash: "
                                        +:+ String.substring 0 16 h +:+ "...)");
                            NetFetch (js_String
                              (get (get (get manifest "files") category) "url"));
                            DigestComputed rawText])%list = true).
  { rewrite forallb_app, (console_or_fetch_no_parse _ Hev1). reflexivity. }
  assert (Hdig : In (DigestComputed rawText)
                   (evs1 ++ [ConsoleLog ("Fetching " +:+ category
                                         +:+ " with integrity check (hash: "
                                         +:+ String.substring 0 16 h +:+ "...)");
                             NetFetch (js_String
                               (get (get (get manifest "files") category) "url"));
                             DigestComputed rawText])%list).
  { rewrite in_app_iff. cbn. tauto. }
  match type of Hnp with forallb _ ?l = true => remember l as evsC eqn:HevsC end.
  clear HevsC.
  eexists. split; [exact Ef|]. split; [exact Hnp|].
  split; [exact Hdig|].
  split; [apply (manifest_frame_memory _ _ Hframe)|].
  split; [apply (manifest_frame_storage _ _ _ Hframe), rule_key_not_index, Hc|].
  intros memoryRecord storedRecord.
  destruct (usable storedRecord) eqn:Hu.
  - destruct storedRecord as [stored|]; [|discriminate]. cbn in Hu.
    rewrite (fetchOperation_stale _ _ _ _ _ _ _ Hc Ef Hu).
    do 3 eexists. split; [reflexivity|]. split.
    + rewrite forallb_app, Hnp. reflexivity.
    + intros record [= <-].
      split; [apply cached_memory|]. split; [apply cached_storage|].
      split; [reflexivity|]. left. now exists stored.
  - destruct (loadFallbackRule_run category w1) as (rf & evsF & El & _ & HnpF & Hfb).
    rewrite (fetchOperation_fallback _ _ _ _ _ _ _ _ _ Hc Ef Hu El).
    destruct rf as [fe|fb]; do 3 eexists; (split; [reflexivity|]); split.
    + rewrite !forallb_app, Hnp, HnpF. reflexivity.
    + discriminate.
    + rewrite !forallb_app, Hnp, HnpF. reflexivity.
    + intros record [= <-].
      split; [apply cached_memory|]. split; [apply cached_storage|].
      split; [reflexivity|]. right. apply (Hfb fb eq_refl).
Qed.


(** C7. Whatever makes the request for the manifest fail,
    [fetchIndexManifest] returns null and does not throw;
    [fetchRuleFromCdn] then requests the hardcoded URL of the category,
    computes no digest, and any record it returns has [verified] false
    and a null digest. It does return one when that URL answers with a
    document that normalizes. *)
Theorem C7_manifest_failure_degrades category w :
  In category RULE_CATEGORIES ->
  manifest_cache_stale w = true ->
  manifest_request_fails w = true ->
  (exists evs0, fetchIndexManifest w = (inr VNull, w, evs0))
  /\ exists r evs,
       fetchRuleFromCdn category w = (r, w, evs)
       /\ In (NetFetch (default "" (table_get category RULE_ENDPOINTS))) evs
       /\ forallb (fun ev => negb (is_digest ev)) evs = true
       /\ (forall record, r = inr record ->
             rec_source record = "cdn"
             /\ rec_url record = VStr (default "" (table_get category RULE_ENDPOINTS))
             /\ rec_verified record = Some false
             /\ rec_hash record = VNull)
       /\ (forall st rawText json payload evsN,
             network w (default "" (table_get category RULE_ENDPOINTS))
             = Completes (FetchResponds st rawText) ->
             ok {| status := st; body := rawText |} = true ->
             JSON_parse rawText = inr json ->
             normalizeRuleData category json w = (inr payload, w, evsN) ->
             exists record, r = inr record /\ rec_data record = payload).
Proof.
  intros Hc Hstale Hfails.
  destruct (fetchIndexManifest_fails w Hstale Hfails) as (evs0 & Em & Hev0 & _).
  split; [now exists evs0|].
  rewrite (fetchRuleFromCdn_unfold _ _ _ _ _ Hc Em).
  rewrite (bind_inr _ _ _ _ _ _ (resolveEndpoint_null category w)). cbn [fst snd].
  destruct (fetchVerified_run category
              (VStr (default "" (table_get category RULE_ENDPOINTS))) VNull w)
    as (r & evs3 & Ev & Hin & _ & Hnd & Hrec).
  rewrite Ev. do 2 eexists. split; [reflexivity|]. split; [|split; [|split]].
  - rewrite !in_app_iff. cbn. cbn in Hin. tauto.
  - rewrite !forallb_app, (console_or_fetch_no_digest _ Hev0), (Hnd eq_refl).
    reflexivity.
  - intros record ->.
    destruct (Hrec record eq_refl) as (_ & Hsrc & Hurl & _ & _ & _ & Hver & Hhash & _).
    auto.
  - intros st rawText json payload evsN Hnet Hok Hparse Hnorm.
    revert Ev. unfold fetchVerified, fetchWithTimeout. unfold_monad.
    cbn [js_String truthy]. rewrite Hnet. cbn in Hok. cbn. rewrite Hok. cbn.
    rewrite Hparse. cbn. rewrite Hnorm. cbn. intros [= <- <-].
    eexists. split; reflexivity.
Qed.
End Integrity.

(** ** Refresh, recovery and broadcasts (claims C3, C4, C9 and C10) *)

Section Refresh.
Context `{Platform}.








(** Freshness is a strict comparison of the record's age with the TTL of
    its source: six hours for [cdn], fifteen minutes otherwise. *)
Lemma isRecordFresh_ttl now r :
  rec_fetchedAt r <> 0%Z ->
  isRecordFresh now (Some r)
  = (now - rec_fetchedAt r
     <? (if String.eqb (rec_source r) "cdn" then 21600000 else 900000))%Z.
Proof.
  intros Hat. unfold isRecordFresh. apply Z.eqb_neq in Hat. now rewrite Hat.
Qed.

(** A fresh record in memory is returned as it is, with no event at
    all. *)
Lemma retrieveRule_fresh_memory category w r :
  In category RULE_CATEGORIES ->
  inMemoryRuleCache w !! category = Some r ->
  isRecordFresh (clock w) (Some r) = true ->
  retrieveRule category false w = (inr r, w, []).
Proof.
  intros Hc Hmem Hfresh. unfold retrieveRule.
  rewrite (bind_inr _ _ _ _ _ _ (retrieveRule_memory_run category false w Hc)).
  rewrite Hmem. cbn [negb andb]. now rewrite Hfresh.
Qed.

(** A fresh record in storage is returned without any request, with its
    data as [loadRuleFromStorage] normalized it again. *)
Lemma retrieveRule_fresh_storage category w r w1 evs1 :
  In category RULE_CATEGORIES ->
  isRecordFresh (clock w) (inMemoryRuleCache w !! category) = false ->
  retrieveRule_storage category false w = (inr (inl r), w1, evs1) ->
  retrieveRule category false w = (inr r, w1, evs1)
  /\ forallb (fun ev => negb (is_net_fetch ev)) evs1 = true.
Proof.
  intros Hc Hstale Es.
  destruct (retrieveRule_storage_total category false w Hc)
    as (hit & w1' & evs1' & Es' & Hnf & _).
  rewrite Es in Es'. injection Es' as <- <- <-. split; [|exact Hnf].
  unfold retrieveRule.
  rewrite (bind_inr _ _ _ _ _ _ (retrieveRule_memory_run category false w Hc)).
  cbn [negb andb].
  destruct (inMemoryRuleCache w !! category) as [m|]; [rewrite Hstale|];
    rewrite (bind_inr _ _ _ _ _ _ Es); cbn; now rewrite ?app_nil_r.
Qed.
End Refresh.

(** ** One fetch in flight per category (claim C8) *)

Section Coalescing.
Context `{Platform}.






(** X1. A caller alone: with no entry for the category in the in-flight
    map, the steps of one call give what [retrieveRule] gives and leave
    the map as it was. *)
Lemma lone_caller category forceRefresh s r w' evs :
  pendingRuleFetches s !! category = None ->
  retrieveRule category forceRefresh (sys_world s) = (r, w', evs) ->
  exists ls s',
    run (Call category forceRefresh :: ls) s = Some s'
    /\ tasks s' !! length (tasks s) = Some (Finished r)
    /\ sys_world s' = w'
    /\ sys_events s' = (sys_events s ++ evs)%list
    /\ pendingRuleFetches s' = pendingRuleFetches s.
Proof.
  intros Hp. unfold retrieveRule, bind. cbn [run run_label].
  destruct (retrieveRule_memory category forceRefresh (sys_world s))
    as [[[e|[record|memoryRecord]] w1] evs1] eqn:E1; cbv beta iota.
  - intros [= <- <- <-]. exists []. eexists. split; [reflexivity|]. cbn.
    rewrite lookup_app_r, Nat.sub_diag by lia. now repeat split.
  - unfold ret. intros [= <- <- <-]. exists []. eexists. split; [reflexivity|]. cbn.
    rewrite lookup_app_r, Nat.sub_diag, app_nil_r by lia. now repeat split.
  - destruct (retrieveRule_storage category forceRefresh w1)
      as [[[e|[record|storedRecord]] w2] evs2] eqn:E2; cbv beta iota.
    + intros [= <- <- <-]. exists [StorageRead (length (tasks s))]. eexists.
      split.
      { cbn. rewrite lookup_app_r, Nat.sub_diag by lia. cbn. rewrite E2. reflexivity. }
      cbn. rewrite list_lookup_insert_eq, <- app_assoc by (rewrite length_app; cbn; lia).
      now repeat split.
    + unfold ret. intros [= <- <- <-]. exists [StorageRead (length (tasks s))]. eexists.
      split.
      { cbn. rewrite lookup_app_r, Nat.sub_diag by lia. cbn. rewrite E2. reflexivity. }
      cbn. rewrite list_lookup_insert_eq, <- app_assoc, app_nil_r
        by (rewrite length_app; cbn; lia).
      now repeat split.
    + destruct (fetchOperation category memoryRecord storedRecord w2)
        as [[[e3|r3] w3] evs3] eqn:E3; cbv beta iota; unfold ret, cloneData;
        intros [= <- <- <-];
        exists [StorageRead (length (tasks s)); Settle (length (promises s));
                Resume (length (tasks s))];
        eexists; (split;
        [ cbn; rewrite lookup_app_r, Nat.sub_diag by lia; cbn; rewrite E2, Hp; cbn;
          rewrite lookup_app_r, Nat.sub_diag by lia; cbn; rewrite E3; cbn;
          rewrite list_lookup_insert_eq by (rewrite length_app; cbn; lia); cbn;
          rewrite list_lookup_insert_eq by (rewrite length_app; cbn; lia);
          reflexivity
        | cbn; rewrite list_lookup_insert_eq
            by (rewrite length_insert, length_app; cbn; lia);
          rewrite delete_insert_id by exact Hp; rewrite <- !app_assoc;
          unfold cloneData; cbn; rewrite ?app_nil_r; now repeat split ]).
Qed.
End Coalescing.

(** * Scenarios *)

Section Scenarios.
#[local] Existing Instance sample_platform.

Lemma aiTerms_known : In "aiTerms" RULE_CATEGORIES.
Proof. cbn. tauto. Qed.





Lemma C1_witness :
  exists w' evs,
    fetchRuleFromCdn "aiTerms" (fresh_install cdn_tampered)
    = (inl (Error (integrity_message "aiTerms" sample_terms_digest
                     (sha256_hex "terms-v2.json"))), w', evs)
    /\ forallb (fun ev => negb (is_json_parse ev)) evs = true
    /\ inMemoryRuleCache w' = ∅.
Proof.
  edestruct (C1_digest_mismatch_is_fatal "aiTerms" (fresh_install cdn_tampered))
    as (evs & E & Hnp & _ & Hmem & _).
  - apply aiTerms_known.
  - reflexivity.
  - reflexivity.
  - reflexivity.
  - discriminate.
  - reflexivity.
  - reflexivity.
  - vm_compute. discriminate.
  - do 2 eexists. split; [exact E|]. split; [exact Hnp|exact Hmem].
Defined.






Lemma C7_witness :
  manifest_cache_stale (fresh_install cdn_without_manifest) = true
  /\ manifest_request_fails (fresh_install cdn_without_manifest) = true
  /\ (exists evs0,
        fetchIndexManifest (fresh_install cdn_without_manifest)
        = (inr VNull, fresh_install cdn_without_manifest, evs0))
  /\ exists record evs,
       fetchRuleFromCdn "aiTerms" (fresh_install cdn_without_manifest)
       = (inr record, fresh_install cdn_without_manifest, evs)
       /\ rec_url record = VStr aiTerms_endpoint
       /\ rec_verified record = Some false
       /\ forallb (fun ev => negb (is_digest ev)) evs = true.
Proof.
  split; [reflexivity|]. split; [reflexivity|].
  destruct (C7_manifest_failure_degrades "aiTerms"
              (fresh_install cdn_without_manifest) aiTerms_known eq_refl eq_refl)
    as (Hnull & r & evs & E & _ & Hnd & Hrec & Hok).
  split; [exact Hnull|].
  edestruct Hok as (record & -> & _); [reflexivity..|].
  destruct (Hrec record eq_refl) as (_ & Hurl & Hver & _).
  exists record, evs. split; [exact E|]. split; [exact Hurl|].
  split; [exact Hver|exact Hnd].
Defined.

(** C9 fails on the code: a preserve-list record fetched a thousand
    seconds ago is in storage and the worker has restarted. The call
    makes no request, but the record it returns (and puts in memory) has
    lost the entry the cached payload had, because the storage reader
    runs the stored, already normalized payload through
    [normalizeRuleData] again, which reads [entries] as a raw array. *)
Theorem C9_stored_preserve_list_comes_back_empty :
  isRecordFresh (clock restarted_with_preserve_list) (Some recent_preserve_record)
  = true
  /\ length (ensureArray
               (get (get (rec_data recent_preserve_record) "entries") "combined"))
     = 1
  /\ exists record w' evs,
       retrieveRule "preserveList" false restarted_with_preserve_list
       = (inr record, w', evs)
       /\ forallb (fun ev => negb (is_net_fetch ev)) evs = true
       /\ get (get (rec_data record) "entries") "combined" = VArr []
       /\ rec_data record <> rec_data recent_preserve_record
       /\ inMemoryRuleCache w' !! "preserveList" = Some record.
Proof.
  split; [reflexivity|]. split; [reflexivity|].
  do 3 eexists. split; [reflexivity|]. split; [reflexivity|].
  split; [reflexivity|]. split; [discriminate|]. vm_compute. reflexivity.
Qed.


End Scenarios.

(** * Further properties *)

(** ** What a call changes *)

Section Effects.
Context `{Platform}.

Lemma table_get_In category url :
  table_get category RULE_ENDPOINTS = Some url -> In category RULE_CATEGORIES.
Proof.
  unfold RULE_CATEGORIES, RULE_ENDPOINTS. cbn [table_get map fst In].
  repeat match goal with
         | |- context [String.eqb ?k category] =>
             destruct (String.eqb_spec k category) as [<-|_]; [intros _; tauto|]
         end.
  discriminate.
Qed.

Lemma ensureCategory_unknown {St} category (s : St) :
  ~ In category RULE_CATEGORIES ->
  ensureCategory category s
  = (inl (Error ("Unknown rule category: " +:+ category)), s, []).
Proof.
  intros Hn. unfold ensureCategory.
  destruct (table_get category RULE_ENDPOINTS) as [url|] eqn:E; [|reflexivity].
  now apply table_get_In in E.
Qed.

Lemma append_inj_r (a b c : string) : a +:+ b = a +:+ c -> b = c.
Proof. induction a as [|x a IH]; cbn; [auto|]. intros [= E]. auto. Qed.

Lemma touches_only_refl category w : touches_only category w w.
Proof. unfold touches_only. tauto. Qed.

Lemma touches_only_trans category w1 w2 w3 :
  touches_only category w1 w2 -> touches_only category w2 w3 ->
  touches_only category w1 w3.
Proof.
  intros (C1 & N1 & B1 & T1 & M1 & S1) (C2 & N2 & B2 & T2 & M2 & S2).
  unfold touches_only. repeat split; try congruence.
  - intros c Hc. now rewrite M2, M1.
  - intros k Hk Hi. now rewrite S2, S1.
Qed.

Lemma touches_only_manifest category w w' :
  manifest_frame w w' -> touches_only category w w'.
Proof.
  intros [->|(m & t & ->)]; [apply touches_only_refl|].
  unfold touches_only. cbn. repeat split; try reflexivity.
  intros k _ Hi. now rewrite lookup_insert_ne.
Qed.

Lemma touches_only_cached category record w :
  touches_only category w (cached category record w).
Proof.
  unfold touches_only. cbn. repeat split; try reflexivity.
  - intros c Hc. now rewrite lookup_insert_ne.
  - intros k Hk _. now rewrite lookup_insert_ne.
Qed.

(** What [loadRuleFromStorage] writes: nothing, or it removes the item it
    found invalid and returns null. *)
Lemma loadRuleFromStorage_effect category w :
  In category RULE_CATEGORIES ->
  exists r w' evs,
    loadRuleFromStorage category w = (inr r, w', evs)
    /\ (w' = w
        \/ (r = None
            /\ w' = set_storage (delete (RULE_STORAGE_PREFIX +:+ category)) w)).
Proof.
  intros Hc. unfold loadRuleFromStorage.
  rewrite (bind_inr _ _ _ _ _ _ (ensureCategory_known category w Hc)).
  unfold_monad. cbn.
  destruct (storage w !! (RULE_STORAGE_PREFIX +:+ category)) as [[stored|m t]|];
    try (exists None, w, []; split; [reflexivity|now left]).
  destruct (truthy (rec_data stored)); cbn;
    try (exists None, w, []; split; [reflexivity|now left]).
  destruct (pure_normalizeRuleData category (rec_data stored) w)
    as (rn & evn & En & _).
  rewrite En. destruct rn as [e|normalized]; cbn; do 3 eexists;
    (split; [reflexivity|]); [right|left]; auto.
Qed.

Lemma touches_only_load category w r w' evs :
  In category RULE_CATEGORIES ->
  loadRuleFromStorage category w = (inr r, w', evs) ->
  touches_only category w w'.
Proof.
  intros Hc E.
  destruct (loadRuleFromStorage_effect category w Hc) as (r0 & w0 & evs0 & E0 & Hw).
  rewrite E in E0. injection E0 as <- <- <-.
  destruct Hw as [->|(_ & ->)]; [apply touches_only_refl|].
  unfold touches_only. cbn. repeat split; try reflexivity.
  intros k Hk _. now rewrite lookup_delete_ne.
Qed.

(** The refresh either caches the record it returns, on top of what the
    manifest fetch wrote, or throws and caches nothing. *)
Lemma fetchOperation_effect category memoryRecord storedRecord w :
  In category RULE_CATEGORIES ->
  exists r w' evs w1,
    fetchOperation category memoryRecord storedRecord w = (r, w', evs)
    /\ manifest_frame w w1
    /\ match r with
       | inr record => w' = cached category record w1
       | inl _ => w' = w1
       end.
Proof.
  intros Hc.
  destruct (fetchRuleFromCdn_run category w Hc) as (rc & w1 & evs1 & Ef & Hframe & _).
  destruct rc as [cdnError|record].
  - destruct (usable storedRecord) eqn:Hu.
    + destruct storedRecord as [stored|]; [|discriminate]. cbn in Hu.
      rewrite (fetchOperation_stale _ _ _ _ _ _ _ Hc Ef Hu).
      do 3 eexists. exists w1. now repeat split.
    + destruct (loadFallbackRule_run category w1) as (rf & evsF & El & _).
      rewrite (fetchOperation_fallback _ _ _ _ _ _ _ _ _ Hc Ef Hu El).
      destruct rf; do 3 eexists; exists w1; now repeat split.
  - rewrite (fetchOperation_remote _ memoryRecord storedRecord _ _ _ _ Hc Ef).
    do 3 eexists. exists w1. now repeat split.
Qed.

(** The three ways through [retrieveRule]. *)
Lemma retrieveRule_inv category forceRefresh w :
  In category RULE_CATEGORIES ->
  (exists r,
      inMemoryRuleCache w !! category = Some r
      /\ forceRefresh = false
      /\ isRecordFresh (clock w) (Some r) = true
      /\ retrieveRule category forceRefresh w = (inr r, w, []))
  \/ exists storedRecord w1 evs1,
       loadRuleFromStorage category w = (inr storedRecord, w1, evs1)
       /\ ((exists r,
              storedRecord = Some r
              /\ forceRefresh = false
              /\ isRecordFresh (clock w1) (Some r) = true
              /\ retrieveRule category forceRefresh w
                 = (inr r, set_inMemoryRuleCache (insert category r) w1, evs1))
           \/ retrieveRule category forceRefresh w
              = let '(r, w', evs) :=
                  fetchOperation category (inMemoryRuleCache w !! category)
                    storedRecord w1 in
                (r, w', (evs1 ++ evs)%list)).
Proof.
  intros Hc.
  pose proof (retrieveRule_memory_run category forceRefresh w Hc) as Em.
  destruct (loadRuleFromStorage_effect category w Hc) as (st & w1 & evs1 & El & _).
  pose proof (retrieveRule_storage_run category forceRefresh w st w1 evs1 El) as Es.
  assert (Hrest :
            retrieveRule_memory category forceRefresh w
            = (inr (inr (inMemoryRuleCache w !! category)), w, []) ->
            exists storedRecord w2 evs2,
              loadRuleFromStorage category w = (inr storedRecord, w2, evs2)
              /\ ((exists r,
                     storedRecord = Some r
                     /\ forceRefresh = false
                     /\ isRecordFresh (clock w2) (Some r) = true
                     /\ retrieveRule category forceRefresh w
                        = (inr r, set_inMemoryRuleCache (insert category r) w2, evs2))
                  \/ retrieveRule category forceRefresh w
                     = let '(r, w', evs) :=
                         fetchOperation category (inMemoryRuleCache w !! category)
                           storedRecord w2 in
                       (r, w', (evs2 ++ evs)%list))).
  { intros Em'. exists st, w1, evs1. split; [exact El|].
    destruct st as [r|].
    - destruct (negb forceRefresh && isRecordFresh (clock w1) (Some r)) eqn:Hf.
      + left. exists r. apply andb_true_iff in Hf as [Hforce Hfresh].
        apply negb_true_iff in Hforce. repeat (split; [easy|]).
        unfold retrieveRule. rewrite (bind_inr _ _ _ _ _ _ Em').
        rewrite (bind_inr _ _ _ _ _ _ Es). cbn. now rewrite app_nil_r.
      + right. apply (retrieveRule_refresh _ _ _ _ _ _ _ Em' Es).
    - right. apply (retrieveRule_refresh _ _ _ _ _ _ _ Em' Es). }
  destruct (inMemoryRuleCache w !! category) as [m|] eqn:Hmem.
  - destruct (negb forceRefresh && isRecordFresh (clock w) (Some m)) eqn:Hf.
    + left. exists m. apply andb_true_iff in Hf as [Hforce Hfresh].
      apply negb_true_iff in Hforce. repeat (split; [easy|]).
      unfold retrieveRule. now rewrite (bind_inr _ _ _ _ _ _ Em).
    + right. apply Hrest, Em.
  - right. apply Hrest, Em.
Qed.
End Effects.

Section CallEffects.
Context `{Platform}.

Lemma fetchOperation_caches category memoryRecord storedRecord w record w' evs :
  In category RULE_CATEGORIES ->
  fetchOperation category memoryRecord storedRecord w = (inr record, w', evs) ->
  inMemoryRuleCache w' !! category = Some record
  /\ storage w' !! (RULE_STORAGE_PREFIX +:+ category) = Some (StoredRule record).
Proof.
  intros Hc E.
  destruct (fetchOperation_effect category memoryRecord storedRecord w Hc)
    as (r & w0 & evs0 & w1 & E0 & _ & Hw).
  rewrite E in E0. injection E0 as <- <- <-. subst w'.
  split; [apply cached_memory | apply cached_storage].
Qed.

Lemma touches_only_set_memory category record w :
  touches_only category w (set_inMemoryRuleCache (insert category record) w).
Proof.
  unfold touches_only. cbn. repeat split; try reflexivity.
  intros c Hc. now rewrite lookup_insert_ne.
Qed.

Lemma retrieveRule_effect category forceRefresh w r w' evs :
  retrieveRule category forceRefresh w = (r, w', evs) ->
  touches_only category w w'.
Proof.
  intros E.
  destruct (In_dec string_dec category RULE_CATEGORIES) as [Hc|Hn].
  - destruct (retrieveRule_inv category forceRefresh w Hc)
      as [(m & _ & _ & _ & Er)|(st & w1 & evs1 & El & [(s & _ & _ & _ & Er)|Er])];
      rewrite Er in E.
    + injection E as _ <- _. apply touches_only_refl.
    + injection E as _ <- _.
      eapply touches_only_trans; [apply (touches_only_load _ _ _ _ _ Hc El)|].
      apply touches_only_set_memory.
    + destruct (fetchOperation_effect category (inMemoryRuleCache w !! category) st w1 Hc)
        as (r0 & w0 & evs0 & w2 & E0 & Hframe & Hw).
      rewrite E0 in E. injection E as <- <- _.
      eapply touches_only_trans; [apply (touches_only_load _ _ _ _ _ Hc El)|].
      eapply touches_only_trans; [apply (touches_only_manifest _ _ _ Hframe)|].
      destruct r0; subst w0; [apply touches_only_refl | apply touches_only_cached].
  - unfold retrieveRule, retrieveRule_memory in E.
    rewrite (bind_inl _ _ _ _ _ _
               (bind_inl _ _ _ _ _ _ (ensureCategory_unknown category w Hn))) in E.
    injection E as _ <- _. apply touches_only_refl.
Qed.

(** X2. [retrieveRule] for one category keeps its hands off the others: the
    time, the network, the tabs, every other category's in-memory record
    and every other category's stored record are as before, whatever the
    outcome of the call. *)
Theorem retrieveRule_leaves_other_categories
  category other forceRefresh w r w' evs :
  other <> category ->
  retrieveRule category forceRefresh w = (r, w', evs) ->
  inMemoryRuleCache w' !! other = inMemoryRuleCache w !! other
  /\ (In other RULE_CATEGORIES ->
      storage w' !! (RULE_STORAGE_PREFIX +:+ other)
      = storage w !! (RULE_STORAGE_PREFIX +:+ other))
  /\ clock w' = clock w /\ network w' = network w /\ tabs w' = tabs w.
Proof.
  intros Hne E.
  destruct (retrieveRule_effect _ _ _ _ _ _ E) as (Hclock & Hnet & _ & Htabs & Hmem & Hsto).
  split; [now apply Hmem|]. split; [|auto].
  intros Ho. apply Hsto.
  - intros Heq. now apply append_inj_r in Heq.
  - now apply rule_key_not_index.
Qed.

Lemma retrieveRule_returns_cached category forceRefresh w record w' evs :
  retrieveRule category forceRefresh w = (inr record, w', evs) ->
  In category RULE_CATEGORIES /\ inMemoryRuleCache w' !! category = Some record.
Proof.
  intros E.
  destruct (In_dec string_dec category RULE_CATEGORIES) as [Hc|Hn].
  - split; [exact Hc|].
    destruct (retrieveRule_inv category forceRefresh w Hc)
      as [(m & Hm & _ & _ & Er)|(st & w1 & evs1 & El & [(s & _ & _ & _ & Er)|Er])];
      rewrite Er in E.
    + now injection E as <- <- _.
    + injection E as <- <- _. cbn. apply lookup_insert_eq.
    + destruct (fetchOperation category (inMemoryRuleCache w !! category) st w1)
        as [[r0 w0] evs0] eqn:E0.
      injection E as -> <- _.
      apply (fetchOperation_caches _ _ _ _ _ _ _ Hc E0).
  - unfold retrieveRule, retrieveRule_memory in E.
    rewrite (bind_inl _ _ _ _ _ _
               (bind_inl _ _ _ _ _ _ (ensureCategory_unknown category w Hn))) in E.
    discriminate.
Qed.

(** X3. Whatever record [retrieveRule] returns is the record the in-memory
    cache then holds for the category. *)
Theorem retrieveRule_result_is_cached category forceRefresh w record w' evs :
  retrieveRule category forceRefresh w = (inr record, w', evs) ->
  inMemoryRuleCache w' !! category = Some record.
Proof. intros E. apply (retrieveRule_returns_cached _ _ _ _ _ _ E). Qed.

(** X4. A forced refresh that returns a record has put that same record in
    the in-memory cache and in storage; a call that throws has left the
    in-memory cache as it was. *)
Theorem retrieveRule_forced_refresh_syncs_caches category w :
  (forall record w' evs,
      retrieveRule category true w = (inr record, w', evs) ->
      inMemoryRuleCache w' !! category = Some record
      /\ storage w' !! (RULE_STORAGE_PREFIX +:+ category) = Some (StoredRule record))
  /\ (forall forceRefresh e w' evs,
        retrieveRule category forceRefresh w = (inl e, w', evs) ->
        inMemoryRuleCache w' = inMemoryRuleCache w).
Proof.
  split.
  - intros record w' evs E.
    destruct (In_dec string_dec category RULE_CATEGORIES) as [Hc|Hn].
    + destruct (retrieveRule_inv category true w Hc)
        as [(m & _ & Hf & _)|(st & w1 & evs1 & El & [(s & _ & Hf & _)|Er])];
        try discriminate.
      rewrite Er in E.
      destruct (fetchOperation category (inMemoryRuleCache w !! category) st w1)
        as [[r0 w0] evs0] eqn:E0.
      injection E as -> <- _.
      apply (fetchOperation_caches _ _ _ _ _ _ _ Hc E0).
    + unfold retrieveRule, retrieveRule_memory in E.
      rewrite (bind_inl _ _ _ _ _ _
                 (bind_inl _ _ _ _ _ _ (ensureCategory_unknown category w Hn))) in E.
      discriminate.
  - intros forceRefresh e w' evs E.
    destruct (In_dec string_dec category RULE_CATEGORIES) as [Hc|Hn].
    + destruct (retrieveRule_inv category forceRefresh w Hc)
        as [(m & _ & _ & _ & Er)|(st & w1 & evs1 & El & [(s & _ & _ & _ & Er)|Er])];
        rewrite Er in E; try discriminate.
      destruct (fetchOperation_effect category (inMemoryRuleCache w !! category) st w1 Hc)
        as (r0 & w0 & evs0 & w2 & E0 & Hframe & Hw).
      rewrite E0 in E. injection E as -> <- _. subst w0.
      rewrite (manifest_frame_memory _ _ Hframe).
      destruct (loadRuleFromStorage_effect category w Hc) as (r1 & w3 & evs3 & El' & Hw).
      rewrite El in El'. injection El' as <- <- <-.
      now destruct Hw as [->|(_ & ->)].
    + unfold retrieveRule, retrieveRule_memory in E.
      rewrite (bind_inl _ _ _ _ _ _
                 (bind_inl _ _ _ _ _ _ (ensureCategory_unknown category w Hn))) in E.
      now injection E as _ <- _.
Qed.

(** X5. A record that [retrieveRule] returned is served again, unchanged and
    with no request, no broadcast and no console line, by every later
    call without forceRefresh made while the caches are as the first call
    left them and the record's age is below the TTL of its source (six
    hours for [cdn], fifteen minutes otherwise). *)
Theorem retrieveRule_memoizes category forceRefresh w record w' evs w'' :
  retrieveRule category forceRefresh w = (inr record, w', evs) ->
  same_caches w' w'' ->
  rec_fetchedAt record <> 0%Z ->
  (clock w'' - rec_fetchedAt record
   < (if String.eqb (rec_source record) "cdn" then 21600000 else 900000))%Z ->
  retrieveRule category false w'' = (inr record, w'', []).
Proof.
  intros E (Hmem & _) Hat Hage.
  pose proof (retrieveRule_returns_cached _ _ _ _ _ _ E) as (Hc & Hrec).
  apply retrieveRule_fresh_memory; [exact Hc|now rewrite Hmem|].
  rewrite (isRecordFresh_ttl _ _ Hat). now apply Z.ltb_lt.
Qed.
End CallEffects.

(** ** Callers: the refresh sweep and the message listener *)

Section Callers.
Context `{Platform}.

Lemma refresh_one_run category forceRefresh w :
  exists w' evs,
    try_catch (retrieveRule category forceRefresh;; ret tt)
      (fun error => logError ("Unable to refresh rules for " +:+ category) error) w
    = (inr tt, w', evs)
    /\ touches_only category w w'
    /\ ((exists record, inMemoryRuleCache w' !! category = Some record)
        \/ exists error,
             In (ConsoleError ("Unable to refresh rules for " +:+ category) error) evs).
Proof.
  destruct (retrieveRule category forceRefresh w) as [[[e|record] w1] evs1] eqn:E.
  - erewrite try_catch_inl; [|now rewrite (bind_inl _ _ _ _ _ _ E)].
    cbn. do 2 eexists. split; [reflexivity|].
    split; [apply (retrieveRule_effect _ _ _ _ _ _ E)|].
    right. exists e. rewrite in_app_iff. cbn. tauto.
  - erewrite try_catch_inr; [|now rewrite (bind_inr _ _ _ _ _ _ E)].
    do 2 eexists. split; [reflexivity|].
    split; [apply (retrieveRule_effect _ _ _ _ _ _ E)|].
    left. exists record. apply (retrieveRule_returns_cached _ _ _ _ _ _ E).
Qed.

Lemma refreshEach_run categories forceRefresh :
  forall w,
    exists w' evs,
      refreshEach categories forceRefresh w = (inr tt, w', evs)
      /\ (forall c, ~ In c categories ->
            inMemoryRuleCache w' !! c = inMemoryRuleCache w !! c)
      /\ (List.NoDup categories ->
          forall c, In c categories ->
            (exists record, inMemoryRuleCache w' !! c = Some record)
            \/ exists error,
                 In (ConsoleError ("Unable to refresh rules for " +:+ c) error) evs).
Proof.
  induction categories as [|category rest IH]; intros w.
  - exists w, []. split; [reflexivity|]. split; [reflexivity|]. intros _ c [].
  - destruct (refresh_one_run category forceRefresh w)
      as (w1 & evs1 & E1 & Hframe & Hdone).
    destruct (IH w1) as (w' & evs & Er & Hother & Hall).
    exists w', (evs1 ++ evs)%list. split; [|split].
    + cbn [refreshEach]. rewrite (bind_inr _ _ _ _ _ _ E1). now rewrite Er.
    + intros c Hc. cbn in Hc. rewrite Hother by tauto.
      destruct Hframe as (_ & _ & _ & _ & Hmem & _). apply Hmem. intros ->. tauto.
    + intros Hnd c Hin. apply List.NoDup_cons_iff in Hnd as (Hnotin & Hnd).
      destruct Hin as [<-|Hin].
      * destruct Hdone as [(record & Hrec)|(error & Herr)].
        -- left. exists record. now rewrite Hother.
        -- right. exists error. rewrite in_app_iff. tauto.
      * destruct (Hall Hnd c Hin) as [Hrec|(error & Herr)]; [now left|].
        right. exists error. rewrite in_app_iff. tauto.
Qed.

(** X6. [refreshAllRules] never throws, and when it is done every one of the
    five categories either has a record in the in-memory cache or has its
    failure on the console. *)
Theorem refreshAllRules_covers_every_category forceRefresh w :
  exists w' evs,
    refreshAllRules forceRefresh w = (inr tt, w', evs)
    /\ forall category, In category RULE_CATEGORIES ->
         (exists record, inMemoryRuleCache w' !! category = Some record)
         \/ exists error,
              In (ConsoleError ("Unable to refresh rules for " +:+ category) error) evs.
Proof.
  destruct (refreshEach_run RULE_CATEGORIES forceRefresh w) as (w' & evs & E & _ & Hall).
  exists w', evs. split; [exact E|]. apply Hall.
  unfold RULE_CATEGORIES, RULE_ENDPOINTS. cbn [map fst].
  repeat (apply List.NoDup_cons; [cbn; intuition discriminate|]). apply List.NoDup_nil.
Qed.

End Callers.

(** ** The manifest cache, the digest check and the causes of failure *)

Section RemoteFetch.
Context `{Platform}.




(** X9. A response whose digest is the expected one is accepted: the digest
    is computed before JSON.parse is called, and the record comes back
    verified, with the digest and the normalized payload. *)
Theorem matching_digest_is_accepted
  category url st rawText json payload evsN w :
  network w (js_String url) = Completes (FetchResponds st rawText) ->
  ok {| status := st; body := rawText |} = true ->
  sha256_hex rawText <> "" ->
  JSON_parse rawText = inr json ->
  normalizeRuleData category json w = (inr payload, w, evsN) ->
  fetchVerified category url (VStr (sha256_hex rawText)) w
  = (inr {| rec_category := category;
            rec_data := payload;
            rec_source := "cdn";
            rec_url := url;
            rec_fetchedAt := clock w;
            rec_lastError := None;
            rec_lastFailureAt := None;
            rec_verified := Some true;
            rec_hash := VStr (sha256_hex rawText) |},
     w,
     ([NetFetch (js_String url); DigestComputed rawText;
       ConsoleLog ("✓ Integrity verified for " +:+ category); JsonParsed rawText]
      ++ evsN)%list).
Proof.
  intros Hnet Hok Hne Hparse Hnorm.
  unfold fetchVerified, fetchWithTimeout, computeSHA256, hash_differs.
  unfold_monad. cbn. rewrite Hnet. cbn in Hok |- *. rewrite Hok. cbn.
  fold (sha256_hex rawText).
  apply String.eqb_neq in Hne. rewrite Hne, String.eqb_refl. cbn.
  rewrite Hparse. cbn. rewrite Hnorm. cbn. now rewrite !app_nil_r.
Qed.

End RemoteFetch.

(** ** Manifest entries the worker does not expect *)

Section ManifestEntries.
Context `{Platform}.

(** X11. A manifest that lists the category without a [sha256] string stops
    the remote fetch before it starts: reading the digest's prefix for the
    console line throws a TypeError, which [fetchRuleFromCdn] passes on
    unwrapped, and no request is made beyond those of the manifest. *)
Theorem manifest_entry_without_digest_blocks_the_fetch category manifest w w1 evs1 :
  In category RULE_CATEGORIES ->
  fetchIndexManifest w = (inr manifest, w1, evs1) ->
  truthy (get (get manifest "files") category) = true ->
  (forall digest,
      get (get (get manifest "files") category) "sha256" <> VStr digest) ->
  exists message,
    fetchRuleFromCdn category w = (inl (TypeError message), w1, evs1).
Proof.
  intros Hc Hman Hinfo Hdigest.
  assert (Hfiles : truthy manifest && truthy (get manifest "files") = true).
  { destruct manifest as [| | | | | |props]; try discriminate Hinfo.
    cbn in *. destruct (obj_get "files" props) as [files|]; [|discriminate Hinfo].
    cbn in *. destruct files; try discriminate Hinfo; reflexivity. }
  assert (Hsub : exists message,
             call_substring (get (get (get manifest "files") category) "sha256") 16
             = inl (TypeError message)).
  { destruct (get (get (get manifest "files") category) "sha256") eqn:E;
      try (eexists; reflexivity).
    now destruct (Hdigest s). }
  destruct Hsub as (message & Hsub). exists message.
  unfold fetchRuleFromCdn.
  rewrite (bind_inr _ _ _ _ _ _ (ensureCategory_known category w Hc)).
  rewrite (bind_inr _ _ _ _ _ _ Hman).
  rewrite (bind_inl _ _ w1 (TypeError message) w1 []); [now rewrite app_nil_r|].
  unfold resolveEndpoint. rewrite Hfiles, Hinfo. cbn [andb].
  apply bind_inl. now rewrite Hsub.
Qed.

(** X12. A digest that is falsy without being null, the empty string above
    all, switches the check off but not the flag: the response is parsed
    without any digest being computed, and the record is marked with
    [verified = (expectedHash !== null)]. *)
Theorem falsy_digest_skips_the_check
  category url expectedHash st rawText json payload evsN w :
  truthy expectedHash = false ->
  network w (js_String url) = Completes (FetchResponds st rawText) ->
  ok {| status := st; body := rawText |} = true ->
  JSON_parse rawText = inr json ->
  normalizeRuleData category json w = (inr payload, w, evsN) ->
  exists record evs,
    fetchVerified category url expectedHash w = (inr record, w, evs)
    /\ rec_data record = payload
    /\ rec_hash record = expectedHash
    /\ rec_verified record = Some (not_null expectedHash)
    /\ existsb is_digest evs = existsb is_digest evsN.
Proof.
  intros Hfalsy Hnet Hok Hparse Hnorm.
  unfold fetchVerified, fetchWithTimeout. unfold_monad. cbn.
  rewrite Hnet. cbn in Hok |- *. rewrite Hok, Hfalsy. cbn.
  rewrite Hparse. cbn. rewrite Hnorm. cbn.
  do 2 eexists. split; [reflexivity|]. cbn.
  rewrite ?app_nil_r. repeat split.
Qed.
End ManifestEntries.

(** ** What survives a trip through chrome.storage *)

Section StoredCopies.
Context `{Platform}.

Lemma obj_set_keys_in k v props x :
  In x (map fst (obj_set k v props)) -> x = k \/ In x (map fst props).
Proof.
  induction props as [|[k' v'] rest IH]; cbn.
  - intros [<-|[]]. now left.
  - destruct (String.eqb k' k) eqn:E; cbn.
    + apply String.eqb_eq in E as ->. tauto.
    + intros [<-|Hin]; [tauto|]. destruct (IH Hin); tauto.
Qed.

Lemma obj_set_NoDup k v props :
  List.NoDup (map fst props) -> List.NoDup (map fst (obj_set k v props)).
Proof.
  induction props as [|[k' v'] rest IH]; cbn.
  - intros _. apply List.NoDup_cons; [tauto|apply List.NoDup_nil].
  - intros Hnd. apply List.NoDup_cons_iff in Hnd as [Hk Hrest].
    destruct (String.eqb k' k) eqn:E; cbn.
    + apply String.eqb_eq in E as ->. now apply List.NoDup_cons.
    + apply List.NoDup_cons; [|now apply IH].
      intros Hin. apply obj_set_keys_in in Hin as [->|Hin]; [|tauto].
      now rewrite String.eqb_refl in E.
Qed.

Lemma obj_set_fresh k v props :
  ~ In k (map fst props) -> obj_set k v props = (props ++ [(k, v)])%list.
Proof.
  induction props as [|[k' v'] rest IH]; cbn; [reflexivity|].
  intros Hk. destruct (String.eqb k' k) eqn:E.
  - apply String.eqb_eq in E. tauto.
  - f_equal. apply IH. tauto.
Qed.

Lemma obj_set_arrays k items props :
  Forall (fun kv : string * value => isArray (snd kv) = true) props ->
  Forall (fun kv : string * value => isArray (snd kv) = true)
    (obj_set k (VArr items) props).
Proof.
  induction 1 as [|[k' v'] rest Hv Hrest IH]; cbn.
  - now repeat constructor.
  - destruct (String.eqb k' k); constructor; auto.
Qed.

(** The [text_patterns] object built by [normalizeRuleData]: its keys are
    distinct and its values are arrays... *)
Lemma text_patterns_shape props acc :
  List.NoDup (map fst acc) ->
  Forall (fun kv : string * value => isArray (snd kv) = true) acc ->
  let built :=
    fold_left (fun acc (kv : string * value) =>
                 obj_set (fst kv) (VArr (ensureArray (snd kv))) acc) props acc in
  List.NoDup (map fst built)
  /\ Forall (fun kv : string * value => isArray (snd kv) = true) built.
Proof.
  revert acc. induction props as [|kv rest IH]; cbn; intros acc Hnd Harr; [tauto|].
  apply IH; [now apply obj_set_NoDup|now apply obj_set_arrays].
Qed.

(** ... so building it again from itself gives the same object. *)
Lemma text_patterns_rebuilt props acc :
  List.NoDup (map fst (acc ++ props)%list) ->
  Forall (fun kv : string * value => isArray (snd kv) = true) props ->
  fold_left (fun acc (kv : string * value) =>
               obj_set (fst kv) (VArr (ensureArray (snd kv))) acc) props acc
  = (acc ++ props)%list.
Proof.
  revert acc. induction props as [|[k v] rest IH]; cbn; intros acc Hnd Harr.
  - now rewrite app_nil_r.
  - apply Forall_cons_iff in Harr as [Hv Hrest]. cbn in Hv.
    destruct v; try discriminate. cbn.
    rewrite obj_set_fresh.
    + rewrite IH; [now rewrite <- app_assoc| |exact Hrest].
      now rewrite <- app_assoc.
    + rewrite map_app in Hnd. cbn in Hnd.
      apply List.NoDup_remove_2 in Hnd. rewrite in_app_iff in Hnd. tauto.
Qed.

Lemma js_or_default_twice v d : js_or (js_or v d) d = js_or v d.
Proof. unfold js_or. destruct (truthy v) eqn:E; [now rewrite E|]. now destruct (truthy d). Qed.

Lemma dictionary_payload_fixed
  {St St'} category rawData payload (s s' : St) evs (t : St') :
  category = "aiTerms" \/ category = "aiWidgetSelectors"
  \/ category = "cookiePatterns" ->
  normalizeRuleData category rawData s = (inr payload, s', evs) ->
  normalizeRuleData category payload t = (inr payload, t, []).
Proof.
  intros [->|[->| ->]]; unfold normalizeRuleData, ensureCategory; unfold_monad; cbn.
  - destruct (ensureArray (get rawData "conservative")) as [|c cs] eqn:Ec; cbn;
      [discriminate|].
    intros [= <- <- <-]. reflexivity.
  - destruct (ensureArray (get rawData "selectors")) as [|c cs] eqn:Ec; cbn;
      [discriminate|].
    intros [= <- <- <-]. cbn.
    destruct (text_patterns_shape
                (match ensureObject (get rawData "text_patterns") with
                 | VObj props => props | _ => [] end) [])
      as [Hnd Harr]; [apply List.NoDup_nil|constructor|].
    rewrite (text_patterns_rebuilt _ [] Hnd Harr). cbn.
    now destruct (get rawData "platforms").
  - destruct (ensureArray (get rawData "reject_phrases")) as [|c cs] eqn:Ec; cbn;
      [discriminate|].
    intros [= <- <- <-]. cbn. rewrite map_map. cbn.
    erewrite map_ext; [reflexivity|].
    intros cmp. cbn. now rewrite js_or_default_twice.
Qed.

(** X13. On the three dictionary categories the normalizer returns its own
    output unchanged, without a console line: a payload that came out of
    [normalizeRuleData] passes through it again as it is. *)
Theorem dictionary_payload_normalizes_to_itself
  {St St'} category rawData payload (s s' : St) evs (t : St') :
  category = "aiTerms" \/ category = "aiWidgetSelectors"
  \/ category = "cookiePatterns" ->
  normalizeRuleData category rawData s = (inr payload, s', evs) ->
  normalizeRuleData category payload t = (inr payload, t, []).
Proof. apply dictionary_payload_fixed. Qed.

(** X14. A record of a dictionary category that is written to storage is read
    back as it was written (the kill-list and the preserve-list are not,
    their payloads being changed by a second normalization). *)
Theorem dictionary_record_survives_storage
  {St} category rawData record (s s' : St) evs w :
  category = "aiTerms" \/ category = "aiWidgetSelectors"
  \/ category = "cookiePatterns" ->
  normalizeRuleData category rawData s = (inr (rec_data record), s', evs) ->
  rec_category record = category ->
  exists w',
    saveRuleToStorage category record w = (inr tt, w', [])
    /\ loadRuleFromStorage category w' = (inr (Some record), w', []).
Proof.
  intros Hcat Hnorm Hrc.
  assert (Hc : In category RULE_CATEGORIES).
  { destruct Hcat as [->|[->| ->]]; cbn; tauto. }
  eexists. split; [now apply saveRuleToStorage_run|].
  unfold loadRuleFromStorage.
  rewrite (bind_inr _ _ _ _ _ _ (ensureCategory_known category _ Hc)).
  unfold_monad. cbn. rewrite lookup_insert_eq.
  rewrite (normalizeRuleData_truthy _ _ _ _ _ _ Hnorm). cbn.
  rewrite (dictionary_payload_fixed _ _ _ _ _ _ _ Hcat Hnorm). cbn.
  rewrite <- Hrc at 1. now rewrite record_eta.
Qed.

(** X15. A stored record whose payload no longer passes the normalizer is not
    returned: [loadRuleFromStorage] reports it on the console, removes it
    from chrome.storage without touching the in-memory cache, and the next
    read finds nothing. *)
Theorem invalid_stored_record_is_purged category stored schemaError evsN w :
  In category RULE_CATEGORIES ->
  storage w !! (RULE_STORAGE_PREFIX +:+ category) = Some (StoredRule stored) ->
  truthy (rec_data stored) = true ->
  normalizeRuleData category (rec_data stored) w = (inl schemaError, w, evsN) ->
  exists w',
    loadRuleFromStorage category w
    = (inr None, w',
       (evsN ++ [ConsoleError ("Cached rule invalid for " +:+ category
                               +:+ ", clearing storage copy") schemaError])%list)
    /\ storage w' = delete (RULE_STORAGE_PREFIX +:+ category) (storage w)
    /\ inMemoryRuleCache w' = inMemoryRuleCache w
    /\ loadRuleFromStorage category w' = (inr None, w', []).
Proof.
  intros Hc Hs Ht Hnorm. eexists. split; [|split; [|split]].
  - unfold loadRuleFromStorage.
    rewrite (bind_inr _ _ _ _ _ _ (ensureCategory_known category w Hc)).
    unfold_monad. cbn. rewrite Hs, Ht. cbn. rewrite Hnorm. reflexivity.
  - reflexivity.
  - reflexivity.
  - unfold loadRuleFromStorage.
    rewrite (bind_inr _ _ _ _ _ _ (ensureCategory_known category _ Hc)).
    unfold_monad. cbn. now rewrite lookup_delete_eq.
Qed.
End StoredCopies.

(** ** What a normalized kill-list and preserve-list contain *)

Section KillList.
Context `{Platform}.

(** A successful [entries.map(normalizeDomEntry)]: nothing is logged, and
    the result holds, place by place, the normalized entries. *)
Lemma map_normalizeDomEntry_inv {St} category locale entries :
  forall first ys (s s' : St) evs,
    mapM_index (fun entry index =>
                  liftE (normalizeDomEntry entry category index locale))
      entries first s = (inr ys, s', evs) ->
    s' = s /\ evs = []
    /\ length ys = length entries
    /\ forall j e, entries !! j = Some e ->
         exists y, ys !! j = Some y
                   /\ normalizeDomEntry e category (first + j) locale = inr y.
Proof.
  induction entries as [|x rest IH]; intros first ys s s' evs; cbn [mapM_index].
  - intros [= <- <- <-]. repeat split; intros j e Hj; discriminate.
  - intros (y & s1 & e1 & e2 & Ey & Hk & ->)%bind_inr_inv.
    apply bind_inr_inv in Hk as (ys' & s2 & e3 & e4 & Eys & [= <- <- <-] & ->).
    destruct (normalizeDomEntry x category first locale) as [err|y'] eqn:Ex;
      [discriminate|]. injection Ey as <- <- <-.
    destruct (IH _ _ _ _ _ Eys) as (-> & -> & Hlen & Hat).
    repeat split; [cbn; now rewrite Hlen|].
    intros [|j] e Hj; cbn in Hj |- *.
    + injection Hj as <-. exists y'. now rewrite Nat.add_0_r.
    + destruct (Hat j e Hj) as (y & Hy & Ey). exists y.
      now replace (first + S j) with (S first + j) by lia.
Qed.

Lemma normalizeDomEntry_selector entry category index locale v :
  normalizeDomEntry entry category index locale = inr v ->
  get v "selector" = VStr (selector_of entry) /\ selector_of entry <> "".
Proof.
  unfold normalizeDomEntry.
  destruct (String.eqb (selector_of entry) "") eqn:E; [discriminate|].
  intros [= <-]. split; [reflexivity|]. now apply String.eqb_neq.
Qed.

Lemma registerLocale_inv {St} namespace locales localeKey title entries
  locales' (s s' : St) evs :
  registerLocale namespace locales localeKey title entries s = (inr locales', s', evs) ->
  entries_ok locales ->
  s' = s /\ evs = [] /\ entries_ok locales'.
Proof.
  unfold registerLocale.
  intros (ys & s1 & e1 & e2 & Eys & [= <- <- <-] & ->)%bind_inr_inv Hok.
  apply map_normalizeDomEntry_inv in Eys as (-> & -> & Hlen & Hat).
  repeat split. intros k b Hin.
  apply obj_set_In in Hin as [E|Hin]; [|apply (Hok k b Hin)].
  injection E as -> ->. cbn. intros y Hy.
  apply list_elem_of_In, list_elem_of_lookup in Hy as [j Hj].
  destruct (lookup_lt_is_Some_2 (ensureArray entries) j) as [e He].
  { rewrite <- Hlen. now apply lookup_lt_Some with y. }
  destruct (Hat j e He) as (y' & Hy' & Ey). rewrite Hj in Hy'. injection Hy' as <-.
  apply normalizeDomEntry_selector in Ey as [Es Hne]. eauto.
Qed.

Lemma foldM_index_inv {St A B} (P : B -> Prop) (f : B -> A -> nat -> M St B) l :
  (forall acc x i s acc' s' evs,
     In x l -> P acc -> f acc x i s = (inr acc', s', evs) ->
     s' = s /\ evs = [] /\ P acc') ->
  forall i acc s acc' s' evs,
    P acc -> foldM_index f l i acc s = (inr acc', s', evs) ->
    s' = s /\ evs = [] /\ P acc'.
Proof.
  induction l as [|x rest IH]; intros Hf i acc s acc' s' evs Hacc; cbn [foldM_index].
  - now intros [= <- <- <-].
  - intros (acc1 & s1 & e1 & e2 & E1 & Hk & ->)%bind_inr_inv.
    destruct (Hf _ _ _ _ _ _ _ (or_introl eq_refl) Hacc E1) as (-> & -> & Hacc1).
    apply (IH (fun acc x i s acc' s' evs Hin => Hf acc x i s acc' s' evs (or_intror Hin))
              _ _ _ _ _ _ Hacc1 Hk).
Qed.

Lemma normalizeLanguageBuckets_inv {St} rawSection namespace v (s s' : St) evs :
  normalizeLanguageBuckets rawSection namespace s = (inr v, s', evs) ->
  s' = s /\ evs = []
  /\ exists locales,
       v = VObj [ ("locales", VObj locales);
                  ("combined",
                   VArr (flat_map (fun bucket => flatMap_items (get (snd bucket) "entries"))
                           locales)) ]
       /\ entries_ok locales.
Proof.
  unfold normalizeLanguageBuckets.
  destruct (negb (truthy rawSection)).
  { intros [= <- <- <-]. repeat split. exists []. split; [reflexivity|]. intros k b []. }
  intros (locales & s1 & e1 & e2 & Elocales & [= <- <- <-] & ->)%bind_inr_inv.
  assert (Hnil : entries_ok []) by (intros k b []).
  assert (Hgoal : s1 = s /\ e1 = [] /\ entries_ok locales).
  { destruct rawSection as [| | | | |sections|props]; try (now injection Elocales as <- <- <-).
    - destruct (forallb looksLikeSection sections).
      + apply (foldM_index_inv entries_ok) in Elocales; [exact Elocales| |exact Hnil].
        intros acc x i s0 acc' s0' evs0 _ Hacc
          (key & s2 & e3 & e4 & Ekey & Hreg & ->)%bind_inr_inv.
        destruct (call_toUpperCase _); [discriminate|]. injection Ekey as <- <- <-.
        apply (registerLocale_inv _ _ _ _ _ _ _ _ _ Hreg Hacc).
      + apply (registerLocale_inv _ _ _ _ _ _ _ _ _ Elocales Hnil).
    - apply (foldM_index_inv entries_ok) in Elocales; [exact Elocales| |exact Hnil].
      intros acc x i s0 acc' s0' evs0 _ Hacc.
      destruct (isArray _); intros Hreg;
        apply (registerLocale_inv _ _ _ _ _ _ _ _ _ Hreg Hacc). }
  destruct Hgoal as (-> & -> & Hok). repeat split. now exists locales.
Qed.

Lemma entries_combined_have_selectors locales :
  entries_ok locales ->
  selectors_present
    (flat_map (fun bucket => flatMap_items (get (snd bucket) "entries")) locales).
Proof.
  intros Hok e Hin. apply in_flat_map in Hin as ([k b] & Hkb & He).
  apply (Hok k b Hkb e He).
Qed.

Lemma in_combined (locales : list (string * value)) e :
  In e (flat_map (fun bucket => flatMap_items (get (snd bucket) "entries")) locales)
  <-> exists k b, In (k, b) locales /\ In e (flatMap_items (get b "entries")).
Proof.
  rewrite in_flat_map. split.
  - intros ([k b] & Hkb & He). now exists k, b.
  - intros (k & b & Hkb & He). now exists (k, b).
Qed.

(** X16. A kill-list payload that comes out of the normalizer holds, in each of
    its four sections, only entries with a non-empty selector string, both
    in the locale buckets and in the combined list, whose entries are those
    of the buckets; normalizing a kill-list logs nothing. *)
Theorem kill_list_entries_have_selectors {St} rawData payload (s s' : St) evs :
  normalizeRuleData "killList" rawData s = (inr payload, s', evs) ->
  s' = s /\ evs = []
  /\ forall section, In section kill_list_sections ->
       exists locales combined,
         get payload section
         = VObj [ ("locales", VObj locales); ("combined", VArr combined) ]
         /\ (forall e, In e combined <->
                       exists k b, In (k, b) locales
                                   /\ In e (flatMap_items (get b "entries")))
         /\ entries_ok locales
         /\ selectors_present combined.
Proof.
  unfold normalizeRuleData.
  intros (u & s0 & e0 & e0' & E0 & Hk & ->)%bind_inr_inv.
  vm_compute in E0. injection E0 as <- <- <-.
  repeat match type of Hk with
         | context [String.eqb ?a ?b] =>
             let r := eval vm_compute in (String.eqb a b) in
             change (String.eqb a b) with r in Hk
         end.
  cbv iota in Hk.
  apply bind_inr_inv in Hk as (ads & s1 & e1 & e1' & Eads & Hk & ->).
  apply bind_inr_inv in Hk as (terms & s2 & e2 & e2' & Eterms & Hk & ->).
  apply bind_inr_inv in Hk as (widgets & s3 & e3 & e3' & Ewidgets & Hk & ->).
  apply bind_inr_inv in Hk as (cookies & s4 & e4 & e4' & Ecookies & [= <- <- <-] & ->).
  apply normalizeLanguageBuckets_inv in Eads as (-> & -> & l1 & -> & Hl1).
  apply normalizeLanguageBuckets_inv in Eterms as (-> & -> & l2 & -> & Hl2).
  apply normalizeLanguageBuckets_inv in Ewidgets as (-> & -> & l3 & -> & Hl3).
  apply normalizeLanguageBuckets_inv in Ecookies as (-> & -> & l4 & -> & Hl4).
  split; [reflexivity|]. split; [reflexivity|].
  intros section [<-|[<-|[<-|[<-|[]]]]]; cbn; do 2 eexists;
    (split; [reflexivity|]); (split; [apply in_combined|]);
    (split; [assumption|]); now apply entries_combined_have_selectors.
Qed.


End KillList.

Section PreserveList.
Context `{Platform}.


End PreserveList.

(** ** The hexadecimal digest *)

Section Digest.
Context `{Platform}.

Lemma hex_of_byte b :
  exists c1 c2,
    padStart 2 "0" (toString16 b) = String c1 (String c2 "")
    /\ is_hex_digit c1 = true /\ is_hex_digit c2 = true.
Proof.
  destruct b; do 2 eexists; (split; [vm_compute; reflexivity|]);
    split; vm_compute; reflexivity.
Qed.

Lemma all_bytes_complete b : In b all_bytes.
Proof.
  assert (E : existsb (Byte.eqb b) all_bytes = true) by (destruct b; vm_compute; reflexivity).
  apply existsb_exists in E as (x & Hin & Hx).
  apply Byte.byte_dec_bl in Hx. now subst.
Qed.

Lemma hex_of_byte_inj b1 b2 :
  padStart 2 "0" (toString16 b1) = padStart 2 "0" (toString16 b2) -> b1 = b2.
Proof.
  assert (E : forallb (fun x =>
                forallb (fun y =>
                  implb (String.eqb (padStart 2 "0" (toString16 x))
                                    (padStart 2 "0" (toString16 y)))
                        (Byte.eqb x y)) all_bytes) all_bytes = true)
    by (vm_compute; reflexivity).
  intros Heq.
  rewrite forallb_forall in E. specialize (E b1 (all_bytes_complete b1)).
  rewrite forallb_forall in E. specialize (E b2 (all_bytes_complete b2)).
  apply String.eqb_eq in Heq. rewrite Heq in E. cbn in E.
  now apply Byte.byte_dec_bl.
Qed.

Lemma join_empty_cons x xs : join "" (x :: xs) = x +:+ join "" xs.
Proof.
  unfold join. destruct xs; cbn; [|reflexivity].
  induction x as [|c x IH]; [reflexivity|].
  change (String c x = String c (x +:+ "")). f_equal. exact IH.
Qed.

Lemma two_chars_append c1 c2 rest :
  String c1 (String c2 "") +:+ rest = String c1 (String c2 rest).
Proof. reflexivity. Qed.

Lemma hex_of_bytes_shape (bytes : list Byte.byte) :
  let hex := join "" (map (fun b => padStart 2 "0" (toString16 b)) bytes) in
  String.length hex = 2 * length bytes
  /\ string_forall is_hex_digit hex = true.
Proof.
  induction bytes as [|b rest [IHl IHc]]; [now split|].
  cbn zeta in *. cbn [map]. rewrite join_empty_cons.
  destruct (hex_of_byte b) as (c1 & c2 & -> & H1 & H2).
  rewrite two_chars_append. cbn [String.length string_forall].
  rewrite IHl, H1, H2, IHc. split; [cbn [length]; lia|reflexivity].
Qed.

Lemma hex_of_bytes_inj (l1 l2 : list Byte.byte) :
  join "" (map (fun b => padStart 2 "0" (toString16 b)) l1)
  = join "" (map (fun b => padStart 2 "0" (toString16 b)) l2) ->
  l1 = l2.
Proof.
  revert l2. induction l1 as [|b1 r1 IH]; intros [|b2 r2]; cbn [map].
  - reflexivity.
  - rewrite join_empty_cons. destruct (hex_of_byte b2) as (c1 & c2 & -> & _).
    rewrite two_chars_append. discriminate.
  - rewrite join_empty_cons. destruct (hex_of_byte b1) as (c1 & c2 & -> & _).
    rewrite two_chars_append. discriminate.
  - rewrite !join_empty_cons. intros Heq.
    destruct (hex_of_byte b1) as (c1 & c2 & E1 & _).
    destruct (hex_of_byte b2) as (d1 & d2 & E2 & _).
    rewrite E1, E2, !two_chars_append in Heq. injection Heq as -> -> Hrest.
    f_equal; [|now apply IH].
    apply hex_of_byte_inj. now rewrite E1, E2.
Qed.

(** X19. [computeSHA256] resolves to two lower-case hexadecimal digits for each
    byte of the digest (64 characters for the 32 bytes of SHA-256), so a
    byte below 16 keeps its leading zero; it makes one digest call and
    cannot throw. *)
Theorem computeSHA256_is_lowercase_hex {St} text (s : St) :
  computeSHA256 text s = (inr (sha256_hex text), s, [DigestComputed text])
  /\ String.length (sha256_hex text) = 2 * length (subtle_digest_SHA256 text)
  /\ string_forall is_hex_digit (sha256_hex text) = true.
Proof.
  split; [reflexivity|]. apply hex_of_bytes_shape.
Qed.

(** X20. Comparing the hexadecimal strings is comparing the digests: two texts
    have the same [computeSHA256] result exactly when their digests are
    the same bytes. *)
Theorem equal_hex_means_equal_digest text1 text2 :
  sha256_hex text1 = sha256_hex text2
  <-> subtle_digest_SHA256 text1 = subtle_digest_SHA256 text2.
Proof.
  unfold sha256_hex. split; [apply hex_of_bytes_inj|now intros ->].
Qed.
End Digest.

(** ** Calls that overlap: outcomes and progress *)

Section Interleaving.
Context `{Platform}.

Lemma settled_stays l s s' p r :
  run_label l s = Some s' ->
  promises s !! p = Some (Settled r) ->
  promises s' !! p = Some (Settled r).
Proof.
  intros Hstep Hp. destruct l; cbn in Hstep.
  - destruct (retrieveRule_memory _ _ _) as [[r0 w'] evs].
    now injection Hstep as <-.
  - destruct (tasks s !! i) as [[c f m| | |]|]; try discriminate.
    destruct (retrieveRule_storage _ _ _) as [[[e|[record|stored]] w'] evs];
      try (now injection Hstep as <-).
    destruct (pendingRuleFetches s !! c); injection Hstep as <-; cbn; [exact Hp|].
    now apply lookup_app_l_Some.
  - destruct (promises s !! p0) as [[c m st|r0]|] eqn:Ep0; try discriminate.
    destruct (fetchOperation _ _ _ _) as [[r0 w'] evs]. injection Hstep as <-. cbn.
    rewrite list_lookup_insert_ne; [exact Hp|]. intros ->. congruence.
  - destruct (tasks s !! i) as [[c f m|c q|c q|r0]|]; try discriminate;
      destruct (promises s !! q) as [[c' m' st'|r1]|]; try discriminate;
      now injection Hstep as <-.
  - now injection Hstep as <-.
Qed.


Lemma finished_stays l s s' i r :
  run_label l s = Some s' ->
  tasks s !! i = Some (Finished r) ->
  tasks s' !! i = Some (Finished r).
Proof.
  intros Hstep Hi. destruct l; cbn in Hstep.
  - destruct (retrieveRule_memory _ _ _) as [[r0 w'] evs].
    injection Hstep as <-. cbn. now apply lookup_app_l_Some.
  - destruct (tasks s !! i0) as [[c f m| | |]|] eqn:Ei0; try discriminate.
    assert (Hne : i0 <> i) by (intros ->; congruence).
    destruct (retrieveRule_storage _ _ _) as [[[e|[record|stored]] w'] evs];
      try (injection Hstep as <-; cbn; now rewrite list_lookup_insert_ne).
    destruct (pendingRuleFetches s !! c); injection Hstep as <-; cbn;
      now rewrite list_lookup_insert_ne.
  - destruct (promises s !! p) as [[c m st|r0]|]; try discriminate.
    destruct (fetchOperation _ _ _ _) as [[r0 w'] evs]. now injection Hstep as <-.
  - destruct (tasks s !! i0) as [[c f m|c q|c q|r0]|] eqn:Ei0; try discriminate;
      (assert (Hne : i0 <> i) by (intros ->; congruence));
      destruct (promises s !! q) as [[c' m' st'|r1]|]; try discriminate;
      injection Hstep as <-; cbn; now rewrite list_lookup_insert_ne.
  - now injection Hstep as <-.
Qed.

Lemma settled_stays_run ls : forall s s' p r,
  run ls s = Some s' ->
  promises s !! p = Some (Settled r) ->
  promises s' !! p = Some (Settled r).
Proof.
  induction ls as [|l rest IH]; intros s s' p r; cbn.
  - now intros [= <-].
  - destruct (run_label l s) as [s1|] eqn:El; [|discriminate].
    intros Hrun Hp. apply (IH _ _ _ _ Hrun). apply (settled_stays _ _ _ _ _ El Hp).
Qed.

Lemma finished_stays_run ls : forall s s' i r,
  run ls s = Some s' ->
  tasks s !! i = Some (Finished r) ->
  tasks s' !! i = Some (Finished r).
Proof.
  induction ls as [|l rest IH]; intros s s' i r; cbn.
  - now intros [= <-].
  - destruct (run_label l s) as [s1|] eqn:El; [|discriminate].
    intros Hrun Hi. apply (IH _ _ _ _ Hrun). apply (finished_stays _ _ _ _ _ El Hi).
Qed.

Lemma resume_settled s i category p r :
  tasks s !! i = Some (AwaitingPending category p)
  \/ tasks s !! i = Some (AwaitingOwn category p) ->
  promises s !! p = Some (Settled r) ->
  exists s', run_label (Resume i) s = Some s'
             /\ tasks s' !! i = Some (Finished r)
             /\ promises s' = promises s.
Proof.
  intros [Hi|Hi] Hp; cbn; rewrite Hi, Hp; eexists; (split; [reflexivity|]); cbn;
    (split; [|reflexivity]); apply list_lookup_insert_eq;
    now apply lookup_lt_Some in Hi.
Qed.

(** X21. Once a fetch promise has settled its outcome is fixed: whatever
    happens next, every call that awaits it, the one that created it or
    one that joined it, can resume, finishes with that same outcome, and
    keeps it. *)
Theorem settled_outcome_is_shared ls s s' p r :
  run ls s = Some s' ->
  promises s !! p = Some (Settled r) ->
  promises s' !! p = Some (Settled r)
  /\ forall i category,
       tasks s' !! i = Some (AwaitingPending category p)
       \/ tasks s' !! i = Some (AwaitingOwn category p) ->
       exists s'',
         run_label (Resume i) s' = Some s''
         /\ tasks s'' !! i = Some (Finished r)
         /\ forall ls' s3, run ls' s'' = Some s3 ->
              tasks s3 !! i = Some (Finished r).
Proof.
  intros Hrun Hp. pose proof (settled_stays_run _ _ _ _ _ Hrun Hp) as Hp'.
  split; [exact Hp'|]. intros i category Hi.
  destruct (resume_settled _ _ _ _ _ Hi Hp') as (s'' & Hres & Hfin & _).
  exists s''. split; [exact Hres|]. split; [exact Hfin|].
  intros ls' s3 Hrun'. apply (finished_stays_run _ _ _ _ _ Hrun' Hfin).
Qed.





End Interleaving.

(** ** The further properties on the sample states *)

Section FurtherScenarios.
#[local] Existing Instance sample_platform.

Lemma X1_witness :
  pendingRuleFetches (initial_system (fresh_install cdn_down)) !! "aiTerms" = None
  /\ exists r w' evs ls s',
       retrieveRule "aiTerms" false (fresh_install cdn_down) = (r, w', evs)
       /\ run (Call "aiTerms" false :: ls) (initial_system (fresh_install cdn_down))
          = Some s'
       /\ tasks s' !! 0 = Some (Finished r)
       /\ sys_world s' = w'.
Proof.
  split; [reflexivity|].
  edestruct (lone_caller "aiTerms" false (initial_system (fresh_install cdn_down)))
    as (ls & s' & Hrun & Hfin & Hw & _).
  - reflexivity.
  - reflexivity.
  - do 3 eexists. exists ls, s'. split; [reflexivity|].
    split; [exact Hrun|]. split; [exact Hfin|exact Hw].
Defined.

Lemma X2_witness :
  "killList" <> "aiTerms"
  /\ exists r w' evs,
       retrieveRule "aiTerms" false (fresh_install cdn_down) = (r, w', evs)
       /\ inMemoryRuleCache w' !! "killList" = None
       /\ clock w' = 1700000000000%Z.
Proof.
  split; [discriminate|].
  edestruct (retrieveRule_leaves_other_categories "aiTerms" "killList" false
               (fresh_install cdn_down)) as (Hmem & _ & Hclock & _).
  - discriminate.
  - reflexivity.
  - do 3 eexists. split; [reflexivity|]. split; [exact Hmem|exact Hclock].
Defined.

Lemma X3_witness :
  exists record w' evs,
    retrieveRule "aiTerms" false (fresh_install cdn_healthy) = (inr record, w', evs)
    /\ inMemoryRuleCache w' !! "aiTerms" = Some record.
Proof.
  do 3 eexists. split; [reflexivity|].
  eapply (retrieveRule_result_is_cached "aiTerms" false (fresh_install cdn_healthy)).
  reflexivity.
Defined.

Lemma X4_witness :
  exists record w' evs,
    retrieveRule "aiTerms" true (restarted cdn_healthy) = (inr record, w', evs)
    /\ inMemoryRuleCache w' !! "aiTerms" = Some record
    /\ storage w' !! "ruleCache:aiTerms" = Some (StoredRule record).
Proof.
  do 3 eexists. split; [reflexivity|].
  eapply (proj1 (retrieveRule_forced_refresh_syncs_caches "aiTerms"
                   (restarted cdn_healthy))).
  reflexivity.
Defined.

Lemma X5_witness :
  exists record w' evs,
    retrieveRule "aiTerms" false (fresh_install cdn_healthy) = (inr record, w', evs)
    /\ let later :=
         {| clock := 1700003600000;
            network := cdn_down;
            bundle := packaged_files;
            tabs := [];
            inMemoryRuleCache := inMemoryRuleCache w';
            storage := storage w' |} in
       same_caches w' later
       /\ retrieveRule "aiTerms" false later = (inr record, later, []).
Proof.
  do 3 eexists. split; [reflexivity|]. cbv zeta.
  split; [split; reflexivity|].
  eapply (retrieveRule_memoizes "aiTerms" false (fresh_install cdn_healthy)).
  - reflexivity.
  - split; reflexivity.
  - vm_compute. discriminate.
  - vm_compute. reflexivity.
Defined.



Lemma X9_witness :
  exists record evs,
    fetchVerified "aiTerms" (VStr "https://cdn.example/ai_terms.json")
      (VStr (sha256_hex "terms.json")) (fresh_install cdn_healthy)
    = (inr record, fresh_install cdn_healthy, evs)
    /\ rec_verified record = Some true
    /\ rec_data record = sample_terms.
Proof.
  do 2 eexists. split.
  - eapply (matching_digest_is_accepted "aiTerms"
              (VStr "https://cdn.example/ai_terms.json") 200 "terms.json"
              sample_terms _ _ (fresh_install cdn_healthy)).
    + reflexivity.
    + reflexivity.
    + vm_compute. discriminate.
    + reflexivity.
    + reflexivity.
  - split; reflexivity.
Defined.


Lemma X11_witness :
  exists message w' evs,
    fetchRuleFromCdn "aiTerms" manifest_without_digest
    = (inl (TypeError message), w', evs)
    /\ existsb (fun ev => match ev with
                          | NetFetch url => negb (String.eqb url INDEX_MANIFEST_URL)
                          | _ => false
                          end) evs = false.
Proof.
  edestruct (manifest_entry_without_digest_blocks_the_fetch "aiTerms")
    with (w := manifest_without_digest) as (message & E).
  - apply aiTerms_known.
  - reflexivity.
  - reflexivity.
  - intros digest. vm_compute. discriminate.
  - exists message. do 2 eexists. split; [exact E|]. reflexivity.
Defined.

Lemma X12_witness :
  exists record evs,
    fetchVerified "aiTerms" (VStr "https://cdn.example/ai_terms.json") (VStr "")
      (fresh_install cdn_tampered)
    = (inr record, fresh_install cdn_tampered, evs)
    /\ rec_verified record = Some true
    /\ existsb is_digest evs = false.
Proof.
  edestruct (falsy_digest_skips_the_check "aiTerms"
               (VStr "https://cdn.example/ai_terms.json") (VStr "") 200 "terms-v2.json"
               sample_terms_v2 sample_terms_v2 [] (fresh_install cdn_tampered))
    as (record & evs & E & _ & _ & Hver & Hdig).
  - reflexivity.
  - reflexivity.
  - reflexivity.
  - reflexivity.
  - reflexivity.
  - exists record, evs. split; [exact E|]. split; [exact Hver|exact Hdig].
Defined.

Lemma X13_witness :
  exists payload,
    normalizeRuleData "aiTerms"
      (VObj [ ("conservative", VArr [VStr "chatgpt"]); ("comment", VStr "draft") ]) tt
    = (inr payload, tt, [])
    /\ normalizeRuleData "aiTerms" payload tt = (inr payload, tt, []).
Proof.
  eexists. split; [reflexivity|].
  eapply (dictionary_payload_normalizes_to_itself "aiTerms"
            (VObj [ ("conservative", VArr [VStr "chatgpt"]); ("comment", VStr "draft") ])
            _ tt tt [] tt).
  - left. reflexivity.
  - reflexivity.
Defined.

Lemma X14_witness :
  exists w',
    saveRuleToStorage "aiTerms" old_terms_record (fresh_install cdn_down)
    = (inr tt, w', [])
    /\ loadRuleFromStorage "aiTerms" w' = (inr (Some old_terms_record), w', []).
Proof.
  apply (dictionary_record_survives_storage "aiTerms" sample_terms old_terms_record
           tt tt [] (fresh_install cdn_down)).
  - left. reflexivity.
  - reflexivity.
  - reflexivity.
Defined.

Lemma X15_witness :
  exists w' evs,
    loadRuleFromStorage "aiTerms" restarted_with_broken_record = (inr None, w', evs)
    /\ storage w' !! "ruleCache:aiTerms" = None
    /\ loadRuleFromStorage "aiTerms" w' = (inr None, w', []).
Proof.
  edestruct (invalid_stored_record_is_purged "aiTerms" broken_terms_record
               (Error "aiTerms.conservative must contain at least one entry") []
               restarted_with_broken_record)
    as (w' & E & Hs & _ & Hagain).
  - apply aiTerms_known.
  - reflexivity.
  - reflexivity.
  - reflexivity.
  - do 2 eexists. split; [exact E|]. split; [|exact Hagain].
    rewrite Hs. apply lookup_delete_eq.
Defined.

Lemma X16_witness :
  exists payload locales combined,
    normalizeRuleData "killList"
      (VObj [ ("ads", VArr [ VObj [ ("selector", VStr " #ad ") ] ]) ]) tt
    = (inr payload, tt, [])
    /\ get payload "ads"
       = VObj [ ("locales", VObj locales); ("combined", VArr combined) ]
    /\ selectors_present combined.
Proof.
  edestruct (kill_list_entries_have_selectors (St := unit)
               (VObj [ ("ads", VArr [ VObj [ ("selector", VStr " #ad ") ] ]) ]))
    with (s := tt) as (_ & _ & Hsections).
  - reflexivity.
  - destruct (Hsections "ads") as (locales & combined & Eads & _ & _ & Hsel).
    { cbn. tauto. }
    eexists. exists locales, combined.
    split; [reflexivity|]. split; [exact Eads|exact Hsel].
Defined.



Lemma X20_witness :
  sha256_hex "terms.json" = sha256_hex "terms.json"
  /\ subtle_digest_SHA256 "terms.json" = subtle_digest_SHA256 "terms.json".
Proof.
  split; [reflexivity|].
  apply (proj1 (equal_hex_means_equal_digest "terms.json" "terms.json")). reflexivity.
Defined.

Lemma X21_witness :
  exists s r,
    run [Call "aiTerms" false; StorageRead 0; Settle 0]
      (initial_system (fresh_install cdn_down)) = Some s
    /\ promises s !! 0 = Some (Settled r)
    /\ exists s',
         run [Call "aiTerms" true; StorageRead 1] s = Some s'
         /\ tasks s' !! 1 = Some (AwaitingPending "aiTerms" 0)
         /\ exists s'',
              run_label (Resume 1) s' = Some s''
              /\ tasks s'' !! 1 = Some (Finished r).
Proof.
  pose (s0 := ltac:(let t := eval vm_compute in
                      (run [Call "aiTerms" false; StorageRead 0; Settle 0]
                         (initial_system (fresh_install cdn_down))) in
                    lazymatch t with Some ?s => exact s end)).
  pose (r := ltac:(let t := eval vm_compute in (promises s0 !! 0) in
                   lazymatch t with Some (Settled ?r) => exact r end)).
  pose (s1 := ltac:(let t := eval vm_compute in
                      (run [Call "aiTerms" true; StorageRead 1] s0) in
                    lazymatch t with Some ?s => exact s end)).
  exists s0, r. split; [vm_compute; reflexivity|]. split; [vm_compute; reflexivity|].
  exists s1. split; [vm_compute; reflexivity|]. split; [vm_compute; reflexivity|].
  destruct (settled_outcome_is_shared [Call "aiTerms" true; StorageRead 1] s0 s1 0 r)
    as (_ & Hshared); [vm_compute; reflexivity|vm_compute; reflexivity|].
  destruct (Hshared 1 "aiTerms") as (s'' & Hres & Hfin & _);
    [left; vm_compute; reflexivity|].
  exists s''. split; [exact Hres|exact Hfin].
Defined.

End FurtherScenarios.
